(** * MAX-LLM chat client: conversation store, snapshot and context window

    A shallow embedding of [src/assit/script.js] (class [MaxLLMChatbot]).
    JavaScript strings are modelled by [string], one character per code
    unit; JavaScript numbers that hold lengths, timestamps and keys are
    modelled by [Z] (all of them stay far below 2^53, where the double
    arithmetic of the source is exact).  The object fields ([this.*]), the
    parts of the page the methods touch, [localStorage] and the IndexedDB
    object store are fields of one explicit [state] record that every
    method threads through.  What a handler reads from the platform, the
    refusal of a write by [localStorage] or IndexedDB included, is a field
    of [env]; a method that can throw returns an [outcome]. *)

From Stdlib Require Import ZArith Lia Ascii String List Sorted.
From stdpp Require Import base tactics option list relations sorting strings pretty gmap.

Local Open Scope Z_scope.

(** ** Messages and the context window *)

(** The objects [{ role, content }] held in [this.chatHistory] and sent to
    the provider. *)
Record message := Message { role : string; content : string }.

Global Instance message_eq_dec : EqDecision message.
Proof. solve_decision. Defined.

(** [Array.prototype.slice(start)] with the end omitted: a negative
    [start] counts from the end and is clamped at the first element, a
    positive one is clamped at the length. *)
Definition Array_slice {A} (start : Z) (l : list A) : list A :=
  let len := Z.of_nat (length l) in
  let k := if start <? 0 then Z.max (len + start) 0 else Z.min start len in
  drop (Z.to_nat k) l.

Definition system_message : message :=
  Message "system" "You are maxLLM, a helpful and friendly AI assistant.".

(** [buildMessages(userContent)], as a function of [this.chatHistory]. *)
Definition buildMessages (chatHistory : list message) (userContent : string)
  : list message :=
  system_message :: Array_slice (-10) chatHistory ++ [Message "user" userContent].

(** Completion of a piece of code that may throw. *)
Inductive completion (A : Type) :=
  | Normal (a : A)
  | Throw (e : string).
Arguments Normal {A} a.
Arguments Throw {A} e.

Global Instance completion_bind : MBind completion := fun A B k c =>
  match c with
  | Normal a => k a
  | Throw e => Throw e
  end.

(** Truthiness of a string value: only the empty string is falsy. *)
Definition truthy (s : string) : bool :=
  match s with
  | EmptyString => false
  | String _ _ => true
  end.

(** The callback of the [reduce] in [estimateTokens]:
    [(sum, m) => sum + (m.content ? m.content.length : 0)].  An array slot
    is [None] when it holds [null] or [undefined]; reading [.content] from
    it throws a [TypeError]. *)
Definition add_content_length (sum : Z) (m : option message) : completion Z :=
  match m with
  | None => Throw "TypeError"
  | Some m =>
      Normal (sum + (if truthy (content m)
                     then Z.of_nat (String.length (content m)) else 0))
  end.

(** [messages.reduce(callback, initial)] for a callback that may throw. *)
Fixpoint reduce {A B} (f : B -> A -> completion B) (l : list A) (acc : B)
  : completion B :=
  match l with
  | [] => Normal acc
  | x :: l' => acc' ← f acc x; reduce f l' acc'
  end.

(** [Math.ceil(a / b)] for an integer [a] and a positive integer [b]. *)
Definition Math_ceil_div (a b : Z) : Z := - ((- a) / b).

(** [estimateTokens(messages)]: the [try] block and its [catch]. *)
Definition estimateTokens (messages : list (option message)) : Z :=
  match reduce add_content_length messages 0 with
  | Normal totalChars => Math_ceil_div totalChars 4
  | Throw _ => 0
  end.

(** Following the spec's words: the last [n] elements of a sequence in their
    original order, and the total character length of the contents. *)
Definition last_n {A} (n : nat) (l : list A) : list A :=
  reverse (take n (reverse l)).

Definition total_chars (ms : list message) : Z :=
  foldr (fun m acc => Z.of_nat (String.length (content m)) + acc) 0 ms.

(** ** Platform interfaces *)

(** What one run of an event handler reads from the platform: the clock,
    in the two forms the source reads it; whether IndexedDB refuses the
    write issued by this handler; whether opening the transaction, the store
    or the cursor of a scan throws (a connection that has been closed);
    and, for each key, whether [localStorage.setItem] throws on it (a full
    or disabled storage).  No handler writes a key twice, so a reading per
    key is a reading per call. *)
Record env := Env {
  Date_now : Z;
  Date_toISOString : string;
  idb_write_fails : bool;
  idb_scan_throws : bool;
  setItem_throws : string -> bool
}.

(** The object [{ chatHistory, currentModel, timestamp }] that
    [saveToDatabase] serialises. *)
Record snapshot := Snapshot {
  snap_chatHistory : list message;
  snap_currentModel : string;
  snap_timestamp : string
}.

(** What [loadFromDatabase] can observe of [JSON.parse(saved)]: the call
    throws; or it yields [null] (reading a property of it throws); or it
    yields a value whose [chatHistory] is falsy ([None]) or an array of
    objects with just a string [role] and a string [content], and whose
    [currentModel] is absent or a string; or it yields any other value,
    [ParsedOther]: one whose [chatHistory] is truthy and not such an array
    (a number, an array holding [null]) or whose [currentModel] is truthy
    and not a string.  [this.chatHistory] and [this.currentModel] then
    receive a value that [state] cannot hold. *)
Inductive parsed :=
  | SyntaxError
  | ParsedNull
  | ParsedObject (chatHistory : option (list message)) (currentModel : option string)
  | ParsedOther.

(** [JSON.stringify] on a snapshot object and [JSON.parse] on a stored
    text, as the platform provides them. *)
Class JSON := {
  JSON_stringify : snapshot -> string;
  JSON_parse : string -> parsed
}.

(** What the platform guarantees of them: parsing what was serialised gives
    the object back, and the text of an object is never the empty string. *)
Definition JSON_faithful `{JSON} : Prop :=
  (forall d : snapshot,
      JSON_parse (JSON_stringify d)
      = ParsedObject (Some (snap_chatHistory d)) (Some (snap_currentModel d)))
  /\ (forall d : snapshot, truthy (JSON_stringify d) = true).

(** ** The conversation store *)

(** A value of the object store [chat_records]; [rec_id] is the key the
    store assigns ([keyPath: 'id', autoIncrement: true]). *)
Record chat_record := ChatRecord {
  rec_id : Z;
  rec_sessionId : string;
  rec_timestamp : Z;
  rec_role : string;
  rec_content : string;
  rec_model : string
}.

Global Instance chat_record_eq_dec : EqDecision chat_record.
Proof. solve_decision. Defined.

(** The objects [{ sessionId, records }] built by [readAllSessions]. *)
Record SessionView := { sv_sessionId : string; sv_records : list chat_record }.

(** The object, the storage of the browser and the parts of the page the
    methods read or write.  [db] tells whether [this.db] holds a database
    handle or is still [null]; [chat_records] lists the object store in key
    order and [key_generator] is the next key it assigns.  [chatMessages]
    lists the children of the element as (class name, text);
    [historyContent] is what [renderHistory] last displayed, if anything.
    Scroll positions, element heights, the loading indicator and the value
    the model selector displays are not modelled. *)
Record state := State {
  apiKey : option string;
  currentModel : string;
  chatHistory : list message;
  isLoading : bool;
  db : bool;
  sessionId : string;
  localStorage : gmap string string;
  chat_records : list chat_record;
  key_generator : Z;
  chatMessages : list (string * string);
  messageInput : string;
  historyContent : option (list SessionView);
  historyBackdrop : bool;
  alerts : list string;
  console_errors : list string
}.

Definition set_currentModel (v : string) (st : state) : state :=
  State (apiKey st) v (chatHistory st) (isLoading st) (db st) (sessionId st)
    (localStorage st) (chat_records st) (key_generator st) (chatMessages st)
    (messageInput st) (historyContent st) (historyBackdrop st) (alerts st)
    (console_errors st).

Definition set_chatHistory (v : list message) (st : state) : state :=
  State (apiKey st) (currentModel st) v (isLoading st) (db st) (sessionId st)
    (localStorage st) (chat_records st) (key_generator st) (chatMessages st)
    (messageInput st) (historyContent st) (historyBackdrop st) (alerts st)
    (console_errors st).

Definition set_isLoading (v : bool) (st : state) : state :=
  State (apiKey st) (currentModel st) (chatHistory st) v (db st) (sessionId st)
    (localStorage st) (chat_records st) (key_generator st) (chatMessages st)
    (messageInput st) (historyContent st) (historyBackdrop st) (alerts st)
    (console_errors st).

Definition set_db (v : bool) (st : state) : state :=
  State (apiKey st) (currentModel st) (chatHistory st) (isLoading st) v
    (sessionId st) (localStorage st) (chat_records st) (key_generator st)
    (chatMessages st) (messageInput st) (historyContent st) (historyBackdrop st)
    (alerts st) (console_errors st).

Definition set_sessionId (v : string) (st : state) : state :=
  State (apiKey st) (currentModel st) (chatHistory st) (isLoading st) (db st) v
    (localStorage st) (chat_records st) (key_generator st) (chatMessages st)
    (messageInput st) (historyContent st) (historyBackdrop st) (alerts st)
    (console_errors st).

Definition set_localStorage (v : gmap string string) (st : state) : state :=
  State (apiKey st) (currentModel st) (chatHistory st) (isLoading st) (db st)
    (sessionId st) v (chat_records st) (key_generator st) (chatMessages st)
    (messageInput st) (historyContent st) (historyBackdrop st) (alerts st)
    (console_errors st).

Definition set_object_store (v : list chat_record) (k : Z) (st : state) : state :=
  State (apiKey st) (currentModel st) (chatHistory st) (isLoading st) (db st)
    (sessionId st) (localStorage st) v k (chatMessages st)
    (messageInput st) (historyContent st) (historyBackdrop st) (alerts st)
    (console_errors st).

Definition set_chatMessages (v : list (string * string)) (st : state) : state :=
  State (apiKey st) (currentModel st) (chatHistory st) (isLoading st) (db st)
    (sessionId st) (localStorage st) (chat_records st) (key_generator st) v
    (messageInput st) (historyContent st) (historyBackdrop st) (alerts st)
    (console_errors st).

Definition set_messageInput (v : string) (st : state) : state :=
  State (apiKey st) (currentModel st) (chatHistory st) (isLoading st) (db st)
    (sessionId st) (localStorage st) (chat_records st) (key_generator st)
    (chatMessages st) v (historyContent st) (historyBackdrop st) (alerts st)
    (console_errors st).

Definition set_history_panel (v : option (list SessionView)) (shown : bool)
    (st : state) : state :=
  State (apiKey st) (currentModel st) (chatHistory st) (isLoading st) (db st)
    (sessionId st) (localStorage st) (chat_records st) (key_generator st)
    (chatMessages st) (messageInput st) v shown (alerts st) (console_errors st).

Definition set_alerts (v : list string) (st : state) : state :=
  State (apiKey st) (currentModel st) (chatHistory st) (isLoading st) (db st)
    (sessionId st) (localStorage st) (chat_records st) (key_generator st)
    (chatMessages st) (messageInput st) (historyContent st) (historyBackdrop st)
    v (console_errors st).

Definition set_console_errors (v : list string) (st : state) : state :=
  State (apiKey st) (currentModel st) (chatHistory st) (isLoading st) (db st)
    (sessionId st) (localStorage st) (chat_records st) (key_generator st)
    (chatMessages st) (messageInput st) (historyContent st) (historyBackdrop st)
    (alerts st) v.

(** How a method leaves the object: the state after it, and the error it
    threw when it did not return.  Where a state is expected an outcome
    stands for the state after the call, whether the call returned or
    threw. *)
Record outcome := Outcome { after :> state; thrown : option string }.

(** The rest of a method body runs only when what came before returned. *)
Definition and_then (o : outcome) (k : state -> outcome) : outcome :=
  match thrown o with
  | Some _ => o
  | None => k (after o)
  end.

(** [localStorage.setItem(key, value)]: a refused write throws and leaves
    the storage as it was. *)
Definition localStorage_setItem (e : env) (key value : string) (st : state)
  : outcome :=
  if setItem_throws e key then Outcome st (Some "QuotaExceededError")
  else Outcome (set_localStorage (<[key := value]> (localStorage st)) st) None.

(** ** Strings of the source *)

(** The white space [String.prototype.trim] removes, among the code units
    below 256: tab, line feed, vertical tab, form feed, carriage return,
    space and no-break space. *)
Definition is_white_space (a : ascii) : bool :=
  let n := Z.of_N (N_of_ascii a) in
  ((9 <=? n) && (n <=? 13)) || (n =? 32) || (n =? 160).

Fixpoint trim_start (s : string) : string :=
  match s with
  | EmptyString => EmptyString
  | String a s' => if is_white_space a then trim_start s' else s
  end.

Fixpoint trim_end (s : string) : string :=
  match s with
  | EmptyString => EmptyString
  | String a s' =>
      let t := trim_end s' in
      if is_white_space a && negb (truthy t) then EmptyString else String a t
  end.

Definition trim (s : string) : string := trim_end (trim_start s).

Definition default_model : string := "deepseek/deepseek-r1:free".

(** [x || fallback] for an optional string [x]: absent and empty are falsy. *)
Definition or_else (x : option string) (fallback : string) : string :=
  match x with
  | Some s => if truthy s then s else fallback
  | None => fallback
  end.

(** [!x] for an optional string. *)
Definition falsy (x : option string) : bool :=
  match x with
  | Some s => negb (truthy s)
  | None => true
  end.

(** ** Methods that do not depend on the snapshot *)

(** [store.add(value)] on the object store: the key generator supplies the
    [id]; a refused write throws and leaves the store as it was. *)
Definition IDBObjectStore_add (e : env) (value : Z -> chat_record) (st : state)
  : completion state :=
  if idb_write_fails e then Throw "DOMException"
  else Normal (set_object_store (chat_records st ++ [value (key_generator st)])
                 (key_generator st + 1) st).

Definition addRecordToDb (e : env) (role content : string) (st : state) : state :=
  if negb (db st) then st
  else
    match IDBObjectStore_add e
            (fun id => ChatRecord id (sessionId st) (Date_now e) role content
                         (currentModel st)) st with
    | Normal st' => st'
    | Throw _ => st
    end.

Definition addMessage (e : env) (role content : string) (st : state) : state :=
  let st := set_chatMessages (chatMessages st ++ [("message " +:+ role, content)]) st in
  if bool_decide (role ≠ "error") then
    let st := set_chatHistory (chatHistory st ++ [Message role content]) st in
    addRecordToDb e role content st
  else st.

Definition addMessageToUI (role content : string) (st : state) : state :=
  set_chatMessages (chatMessages st ++ [("message " +:+ role, content)]) st.

Definition setLoading (loading : bool) (st : state) : state :=
  set_isLoading loading st.

(** [startNewSession(force)]; the string it returns is the [sessionId] of
    the resulting state.  The identifier is assigned before it is stored,
    so a refused write leaves the new identifier in the object only. *)
Definition startNewSession (e : env) (force : bool) (st : state) : outcome :=
  let newId := "session-" +:+ pretty (Date_now e) in
  if force || negb (truthy (sessionId st)) then
    let st := set_sessionId newId st in
    localStorage_setItem e "maxllm_session_id" (sessionId st) st
  else Outcome st None.

(** [request.onsuccess] of [initDatabase]: the handle arrives. *)
Definition initDatabase_onsuccess (st : state) : state := set_db true st.

(** *** Reading the store back *)

(** A JavaScript [Map] with string keys: entries in insertion order. *)
Definition Map_has {V} (k : string) (m : list (string * V)) : bool :=
  bool_decide (k ∈ m.*1).

Definition Map_set {V} (k : string) (v : V) (m : list (string * V))
  : list (string * V) :=
  if Map_has k m
  then (fun kv : string * V => if bool_decide (kv.1 = k) then (k, v) else kv) <$> m
  else m ++ [(k, v)].

(** [m.get(k).push(x)]: the array stored under [k] grows in place. *)
Definition Map_get_push {V} (k : string) (x : V) (m : list (string * list V))
  : list (string * list V) :=
  (fun kv : string * list V =>
     if bool_decide (kv.1 = k) then (kv.1, kv.2 ++ [x]) else kv) <$> m.

(** [Array.prototype.sort(cmp)] is stable and orders by the comparator; for
    a consistent comparator that fixes the result, computed here by stable
    insertion.  A comparator result that is not a number counts as 0. *)
Fixpoint sort_insert {A} (cmp : A -> A -> Z) (x : A) (l : list A) : list A :=
  match l with
  | [] => [x]
  | y :: l' => if cmp x y <=? 0 then x :: l else y :: sort_insert cmp x l'
  end.

Definition Array_sort {A} (cmp : A -> A -> Z) (l : list A) : list A :=
  foldr (sort_insert cmp) [] l.

Definition by_timestamp (a b : chat_record) : Z :=
  rec_timestamp a - rec_timestamp b.

(** [s.records[0]?.timestamp] *)
Definition first_timestamp (s : SessionView) : option Z :=
  rec_timestamp <$> head (sv_records s).

(** [(a,b) => b.records[0]?.timestamp - a.records[0]?.timestamp]; with an
    operand [undefined] the difference is [NaN]. *)
Definition by_first_timestamp_desc (a b : SessionView) : Z :=
  match first_timestamp b, first_timestamp a with
  | Some tb, Some ta => tb - ta
  | _, _ => 0
  end.

(** The statements of the cursor callback for one record:
    [if (!result.has(id)) result.set(id, []); result.get(id).push(rec)]. *)
Definition collect (m : list (string * list chat_record)) (rec : chat_record)
  : list (string * list chat_record) :=
  Map_get_push (rec_sessionId rec) rec
    (if negb (Map_has (rec_sessionId rec) m)
     then Map_set (rec_sessionId rec) [] m else m).

Inductive promise (A : Type) :=
  | Pending
  | Resolved (v : A)
  | Rejected (e : string).
Arguments Pending {A}.
Arguments Resolved {A} v.
Arguments Rejected {A} e.

Definition resolve {A} (v : A) (p : promise A) : promise A :=
  match p with
  | Pending => Resolved v
  | _ => p
  end.

(** The variables the callbacks of [readAllSessions] close over. *)
Record reader := Reader {
  result : list (string * list chat_record);
  settled : promise (list SessionView)
}.

Inductive cursor_event :=
  | CursorSuccess (cursor : option chat_record)
  | CursorError.

Definition cursorReq_onsuccess (cursor : option chat_record) (r : reader) : reader :=
  match cursor with
  | Some rec => Reader (collect (result r) rec) (settled r)
  | None =>
      let sessions :=
        Array_sort by_first_timestamp_desc
          ((fun '(id, records) =>
              {| sv_sessionId := id;
                 sv_records := Array_sort by_timestamp records |})
             <$> result r) in
      Reader (result r) (resolve sessions (settled r))
  end.

Definition cursorReq_onerror (r : reader) : reader :=
  Reader (result r) (resolve [] (settled r)).

Definition dispatch (r : reader) (ev : cursor_event) : reader :=
  match ev with
  | CursorSuccess cursor => cursorReq_onsuccess cursor r
  | CursorError => cursorReq_onerror r
  end.

(** [readAllSessions()], given the events the cursor request fires.  The
    executor reads [this.db.transaction]; on a [null] handle that throws
    inside the executor, and so does, on a database handle, a call of
    [transaction], [objectStore] or [openCursor] that the engine refuses.
    The executor has no [try], so either throw rejects the promise.  Once
    the cursor is open, failures arrive as the [error] event of its
    request. *)
Definition readAllSessions (e : env) (st : state) (events : list cursor_event)
  : promise (list SessionView) :=
  if db st then
    if idb_scan_throws e then Rejected "InvalidStateError"
    else settled (foldl dispatch (Reader [] Pending) events)
  else Rejected "TypeError".

(** The events of a cursor over the object store: every record in key
    order and then the end, or an error after [k] records. *)
Definition cursor_events (records : list chat_record) (fails_after : option nat)
  : list cursor_event :=
  match fails_after with
  | None => (CursorSuccess ∘ Some <$> records) ++ [CursorSuccess None]
  | Some k => (CursorSuccess ∘ Some <$> take k records) ++ [CursorError]
  end.

Definition renderHistory (sessions : list SessionView) (st : state) : state :=
  set_history_panel (Some sessions) (historyBackdrop st) st.

(** [showHistory()]; an [await] on a rejected promise throws, before the
    method has changed anything. *)
Definition showHistory (e : env) (fails_after : option nat) (st : state)
  : completion state :=
  if negb (db st) then
    Normal (set_alerts
              (alerts st ++ ["History unavailable (database not initialized)."]) st)
  else
    match readAllSessions e st (cursor_events (chat_records st) fails_after) with
    | Resolved sessions =>
        let st := renderHistory sessions st in
        Normal (set_history_panel (historyContent st) true st)
    | Rejected e => Throw e
    | Pending => Normal st
    end.

Definition hideHistory (st : state) : state :=
  set_history_panel (historyContent st) false st.

(** *** Sending a turn *)

(** The body of the request [callOpenRouterAPI] posts (the fixed sampling
    parameters are left out). *)
Record request := Request { req_model : string; req_messages : list message }.

(** [sendMessage()] up to its [await]: the state it leaves and the request
    it is waiting on, if it issued one. *)
Definition sendMessage (e : env) (st : state) : state * option request :=
  let message := trim (messageInput st) in
  if negb (truthy message) || isLoading st || falsy (apiKey st) then (st, None)
  else
    let messages := buildMessages (chatHistory st) message in
    let tokenCount := estimateTokens (Some <$> messages) in
    if 1000 <? tokenCount then (addMessage e "error" "CLEAR CHAT" st, None)
    else
      let st := addMessage e "user" message st in
      let st := set_messageInput "" st in
      let st := setLoading true st in
      (st, Some (Request (currentModel st) messages)).

(** ** Methods that write or read the snapshot *)

Section Snapshot.
Context `{JSON}.

Definition saveToDatabase (e : env) (st : state) : outcome :=
  let data := Snapshot (chatHistory st) (currentModel st) (Date_toISOString e) in
  localStorage_setItem e "maxllm_data" (JSON_stringify data) st.

Definition console_error (msg : string) (st : state) : state :=
  set_console_errors (console_errors st ++ [msg]) st.

(** [loadFromDatabase()].  It never throws.  The result is [None] when the
    stored text parses to a value of the shape [ParsedOther]: the source
    then assigns that value to [this.chatHistory] or [this.currentModel],
    and what [forEach] does on it (it throws on a number and on a [null]
    element, which the [catch] logs, and leaves the page without the
    lines) has no counterpart over [state]. *)
Definition loadFromDatabase (st : state) : option state :=
  match localStorage st !! "maxllm_data" with
  | Some saved =>
      if truthy saved then
        match JSON_parse saved with
        | ParsedObject h m =>
            let st := set_chatHistory (default [] h) st in
            let st := set_currentModel (or_else m default_model) st in
            Some (foldl (fun st msg => addMessageToUI (role msg) (content msg) st)
                    st (chatHistory st))
        | ParsedNull => Some (console_error "Error loading saved data:" st)
        | SyntaxError => Some (console_error "Error loading saved data:" st)
        | ParsedOther => None
        end
      else Some st
  | None => Some st
  end.

(** [clearChat()]: a refused snapshot write throws before the session is
    rotated. *)
Definition clearChat (e : env) (st : state) : outcome :=
  let st := set_chatMessages [] st in
  let st := set_chatHistory [] st in
  and_then (saveToDatabase e st) (startNewSession e true).

(** The rest of [sendMessage()], once [callOpenRouterAPI] has returned the
    text of the first choice or thrown an error with a message (a reply
    whose content is not a string is not modelled: the source stores it
    unchecked).  The final snapshot write is outside the [try]: when it
    throws, the promise of [sendMessage] is rejected. *)
Definition sendMessage_resume (e : env) (response : completion string)
    (st : state) : outcome :=
  let st :=
    match response with
    | Normal text => addMessage e "assistant" text st
    | Throw msg => addMessage e "error" ("Error: " +:+ msg) st
    end in
  let st := setLoading false st in
  saveToDatabase e st.

(** The [change] listener of the model selector. *)
Definition modelSelect_onchange (e : env) (value : string) (st : state)
  : outcome :=
  saveToDatabase e (set_currentModel value st).

(** What [new MaxLLMChatbot()] comes to: the object; or an exception, when
    [startNewSession] could not store the identifier it minted (no object
    is created then, and page and storage are as they were); or an object
    that [state] cannot hold, see [loadFromDatabase]. *)
Inductive construction :=
  | Constructed (this : state)
  | ConstructorThrew (error : string)
  | Unrepresented.

(** [new MaxLLMChatbot()] on a freshly loaded page, given the key the page
    configures and what the browser has stored.  [this.sessionId] is
    [undefined] until the constructor assigns it; the empty string, which
    is falsy as well, stands for it there.  The database handle arrives
    later, see [initDatabase_onsuccess]. *)
Definition constructor (e : env) (MAXLLM_API_KEY : option string)
    (storage : gmap string string) (records : list chat_record) (next_key : Z)
  : construction :=
  let this :=
    State (if falsy MAXLLM_API_KEY then None else MAXLLM_API_KEY)
      default_model [] false false "" storage records next_key
      [] "" None false [] [] in
  let session :=
    match storage !! "maxllm_session_id" with
    | Some id => if truthy id then Outcome (set_sessionId id this) None
                 else startNewSession e false this
    | None => startNewSession e false this
    end in
  match thrown session with
  | Some error => ConstructorThrew error
  | None =>
      match loadFromDatabase session with
      | Some this => Constructed this
      | None => Unrepresented
      end
  end.
End Snapshot.

(** ** A reference implementation of the JSON interface

    JSON text for snapshot objects, written the way [JSON.stringify] writes
    them (keys in insertion order, no white space, strings quoted by the
    rules of [QuoteJSONString]) and read back by a parser for documents of
    that layout, which takes every other text but [null] for unparseable.
    It shows that the interface [JSON] with its law has an implementation and
    gives the examples below a concrete text to run on; the examples use it
    on texts it writes itself and on a text that is not JSON. *)
Module Reference.

Definition dquote : ascii := "034"%char.
Definition backslash : ascii := "092"%char.

Definition hex_digit (n : N) : ascii :=
  ascii_of_N (if (n <? 10)%N then 48 + n else 87 + n)%N.

Definition hex_value (a : ascii) : option N :=
  let n := N_of_ascii a in
  if ((48 <=? n) && (n <=? 57))%N then Some (n - 48)%N
  else if ((97 <=? n) && (n <=? 102))%N then Some (n - 87)%N
  else if ((65 <=? n) && (n <=? 70))%N then Some (n - 55)%N
  else None.

(** One code unit inside a quoted string. *)
Definition quote_code_unit (a : ascii) : string :=
  let n := N_of_ascii a in
  if (n =? 34)%N then String backslash (String dquote "")
  else if (n =? 92)%N then String backslash (String backslash "")
  else if (n =? 8)%N then String backslash "b"
  else if (n =? 9)%N then String backslash "t"
  else if (n =? 10)%N then String backslash "n"
  else if (n =? 12)%N then String backslash "f"
  else if (n =? 13)%N then String backslash "r"
  else if (n <? 32)%N then
    String backslash
      ("u00" +:+ String (hex_digit (n / 16)) (String (hex_digit (n mod 16)) ""))
  else String a "".

(** Writers take the text that follows as [k]. *)
Fixpoint write_body (s : string) (k : string) : string :=
  match s with
  | EmptyString => String dquote k
  | String a s' => quote_code_unit a +:+ write_body s' k
  end.

Definition write_string (s : string) (k : string) : string :=
  String dquote (write_body s k).

Definition write_key (name : string) (k : string) : string :=
  write_string name (String ":" k).

Definition write_message (m : message) (k : string) : string :=
  String "{" (write_key "role" (write_string (role m)
    (String "," (write_key "content" (write_string (content m)
      (String "}" k)))))).

Fixpoint write_messages (ms : list message) (k : string) : string :=
  match ms with
  | [] => String "]" k
  | [m] => write_message m (String "]" k)
  | m :: ms' => write_message m (String "," (write_messages ms' k))
  end.

Definition write_snapshot (d : snapshot) (k : string) : string :=
  String "{" (write_key "chatHistory" (String "["
    (write_messages (snap_chatHistory d)
      (String "," (write_key "currentModel" (write_string (snap_currentModel d)
        (String "," (write_key "timestamp" (write_string (snap_timestamp d)
          (String "}" k)))))))))).

Definition stringify (d : snapshot) : string := write_snapshot d "".

(** Readers return the value and the text that follows it. *)
Definition escape_value (e : ascii) : option ascii :=
  let n := N_of_ascii e in
  if (n =? 34)%N then Some dquote
  else if (n =? 92)%N then Some backslash
  else if (n =? 47)%N then Some "/"%char
  else if (n =? 98)%N then Some "008"%char
  else if (n =? 116)%N then Some "009"%char
  else if (n =? 110)%N then Some "010"%char
  else if (n =? 102)%N then Some "012"%char
  else if (n =? 114)%N then Some "013"%char
  else None.

Definition hex4 (h1 h2 h3 h4 : ascii) : option ascii :=
  a ← hex_value h1; b ← hex_value h2; c ← hex_value h3; d ← hex_value h4;
  if ((a =? 0) && (b =? 0))%N then Some (ascii_of_N (c * 16 + d)) else None.

Fixpoint read_body (s : string) : option (string * string) :=
  match s with
  | EmptyString => None
  | String a s' =>
      if (N_of_ascii a =? 34)%N then Some (EmptyString, s')
      else if (N_of_ascii a =? 92)%N then
        match s' with
        | String e s'' =>
            if (N_of_ascii e =? 117)%N then
              match s'' with
              | String h1 (String h2 (String h3 (String h4 r))) =>
                  c ← hex4 h1 h2 h3 h4;
                  '(t, r') ← read_body r; Some (String c t, r')
              | _ => None
              end
            else
              c ← escape_value e;
              '(t, r') ← read_body s''; Some (String c t, r')
        | EmptyString => None
        end
      else if (N_of_ascii a <? 32)%N then None
      else '(t, r') ← read_body s'; Some (String a t, r')
  end.

Definition read_string (s : string) : option (string * string) :=
  match s with
  | String a s' => if (N_of_ascii a =? 34)%N then read_body s' else None
  | EmptyString => None
  end.

Fixpoint expect (lit : string) (s : string) : option string :=
  match lit, s with
  | EmptyString, _ => Some s
  | String a lit', String b s' => if Ascii.eqb a b then expect lit' s' else None
  | String _ _, EmptyString => None
  end.

Definition read_key (name : string) (s : string) : option string :=
  '(k, r) ← read_string s;
  if String.eqb k name then expect ":" r else None.

Definition read_message (s : string) : option (message * string) :=
  r ← expect "{" s; r ← read_key "role" r;
  '(ro, r) ← read_string r;
  r ← expect "," r; r ← read_key "content" r;
  '(co, r) ← read_string r;
  r ← expect "}" r;
  Some (Message ro co, r).

(** The elements of an array after its opening bracket. *)
Fixpoint read_messages (fuel : nat) (s : string) : option (list message * string) :=
  match expect "]" s with
  | Some r => Some ([], r)
  | None =>
      match fuel with
      | O => None
      | S fuel' =>
          '(m, r) ← read_message s;
          match expect "," r with
          | Some r' =>
              '(ms, r'') ← read_messages fuel' r';
              match ms with
              | [] => None
              | _ :: _ => Some (m :: ms, r'')
              end
          | None => r' ← expect "]" r; Some ([m], r')
          end
      end
  end.

Definition read_snapshot (s : string) : option (snapshot * string) :=
  r ← expect "{" s; r ← read_key "chatHistory" r; r ← expect "[" r;
  '(h, r) ← read_messages (String.length s) r;
  r ← expect "," r; r ← read_key "currentModel" r;
  '(m, r) ← read_string r;
  r ← expect "," r; r ← read_key "timestamp" r;
  '(t, r) ← read_string r;
  r ← expect "}" r;
  Some (Snapshot h m t, r).

Definition parse (s : string) : parsed :=
  if String.eqb s "null" then ParsedNull
  else
    match read_snapshot s with
    | Some (d, EmptyString) =>
        ParsedObject (Some (snap_chatHistory d)) (Some (snap_currentModel d))
    | _ => SyntaxError
    end.

End Reference.

(** The reference implementation as an instance of the interface. *)
Global Instance reference_JSON : JSON :=
  {| JSON_stringify := Reference.stringify; JSON_parse := Reference.parse |}.

(** ** Definitions that follow the spec's words *)

(** A run of [appendTurn(role, content)] calls, each with the platform
    readings of its own handler, and the (role, content) pairs of the calls
    whose role is not [error]. *)
Definition appendTurns (calls : list (env * (string * string))) (st : state) : state :=
  foldl (fun st c => addMessage c.1 c.2.1 c.2.2 st) st calls.

Definition turns_of (calls : list (env * (string * string))) : list message :=
  (fun c : env * (string * string) => Message c.2.1 c.2.2)
    <$> filter (fun c : env * (string * string) => c.2.1 ≠ "error") calls.

(** The session identifiers of a scan in first-seen order. *)
Fixpoint first_seen (ids : list string) : list string :=
  match ids with
  | [] => []
  | id :: ids' => id :: filter (fun x => x ≠ id) (first_seen ids')
  end.

(** Grouping by [sessionId]: one group per identifier, in first-seen order,
    each holding the records of that session in scan order. *)
Definition group_by_session (scan : list chat_record)
  : list (string * list chat_record) :=
  (fun id => (id, filter (fun r => rec_sessionId r = id) scan))
    <$> first_seen (rec_sessionId <$> scan).

(** The groups as views, in first-seen order, the records of each sorted
    by timestamp. *)
Definition session_views (scan : list chat_record) : list SessionView :=
  (fun g : string * list chat_record =>
     {| sv_sessionId := g.1; sv_records := Array_sort by_timestamp g.2 |})
    <$> group_by_session scan.

(** The timestamp of the first record of a view (0 for a view without
    records, which reconstruction never produces). *)
Definition head_timestamp (v : SessionView) : Z :=
  match sv_records v with
  | r :: _ => rec_timestamp r
  | [] => 0
  end.

(** Descending by the first record's timestamp, as a comparator. *)
Definition latest_first (a b : SessionView) : Z :=
  head_timestamp b - head_timestamp a.

(** [reconstruct()]: group, sort each group by timestamp, sort the groups
    by the timestamp of their first record, latest first. *)
Definition reconstruct (scan : list chat_record) : list SessionView :=
  Array_sort latest_first (session_views scan).

(** The start of a session: the least timestamp among its records in the
    scan (0 for a session without records). *)
Definition session_start (scan : list chat_record) (id : string) : Z :=
  match rec_timestamp <$> filter (fun r => rec_sessionId r = id) scan with
  | [] => 0
  | t :: ts => foldr Z.min t ts
  end.

(** The object store keeps its records by ascending key, all of them below
    the next key of the generator; a cursor scans them in that order. *)
Definition ascending_keys (records : list chat_record) : Prop :=
  StronglySorted (fun a b => rec_id a < rec_id b) records.

Definition store_well_formed (st : state) : Prop :=
  ascending_keys (chat_records st)
  /\ Forall (fun r => rec_id r < key_generator st) (chat_records st).

(** Ascending timestamp, ties broken by primary key. *)
Definition timestamp_then_key (a b : chat_record) : Prop :=
  rec_timestamp a < rec_timestamp b
  \/ (rec_timestamp a = rec_timestamp b /\ rec_id a < rec_id b).


(** ** The rest of the class *)

(** *** Export *)

(** [s.split(sep)[0]] for a one-character separator: the text before its
    first occurrence, the whole string when there is none. *)
Fixpoint split_first (sep : ascii) (s : string) : string :=
  match s with
  | EmptyString => EmptyString
  | String a s' => if Ascii.eqb a sep then EmptyString else String a (split_first sep s')
  end.

(** The object [exportChat] serialises and the name it gives the download.
    The method leaves the object and the storage as they are; the link it
    adds to the page is removed again before it returns. *)
Record chat_export := ChatExport {
  export_timestamp : string;
  export_model : string;
  export_messages : list message;
  export_download : string
}.

Definition exportChat (e : env) (st : state) : chat_export :=
  ChatExport (Date_toISOString e) (currentModel st) (chatHistory st)
    ("maxllm-chat-" +:+ split_first "T" (Date_toISOString e) +:+ ".json").

(** *** Escaping *)

(** [escapeHtml(text)] stores the text as the content of a detached element
    and reads the element's markup back: serialising a text node replaces
    the ampersand, the no-break space and the two angle brackets by their
    character references. *)
Definition escape_code_unit (a : ascii) : string :=
  let n := N_of_ascii a in
  if (n =? 38)%N then "&amp;"
  else if (n =? 160)%N then "&nbsp;"
  else if (n =? 60)%N then "&lt;"
  else if (n =? 62)%N then "&gt;"
  else String a EmptyString.

Fixpoint escapeHtml (text : string) : string :=
  match text with
  | EmptyString => EmptyString
  | String a text' => escape_code_unit a +:+ escapeHtml text'
  end.

(** Reading such markup back as text: the four character references stand
    for their characters. *)
Fixpoint unescapeHtml (html : string) : string :=
  match html with
  | EmptyString => EmptyString
  | String "&" (String "a" (String "m" (String "p" (String ";" r)))) =>
      String "&" (unescapeHtml r)
  | String "&" (String "n" (String "b" (String "s" (String "p" (String ";" r))))) =>
      String "160" (unescapeHtml r)
  | String "&" (String "l" (String "t" (String ";" r))) => String "<" (unescapeHtml r)
  | String "&" (String "g" (String "t" (String ";" r))) => String ">" (unescapeHtml r)
  | String a r => String a (unescapeHtml r)
  end.

(** *** The page as an event loop *)

(** What can happen to the page: the user edits the input box, sends (the
    button or the Enter key), the provider call settles, the user picks a
    model, clears the chat, opens or closes the history, and the database
    handle arrives. *)
Inductive event :=
  | InputText (text : string)
  | Send
  | ProviderSettled (reply : completion string)
  | SelectModel (value : string)
  | ClearChat
  | OpenHistory (fails_after : option nat)
  | CloseHistory
  | DatabaseOpened.

(** The object together with the request [sendMessage] is suspended on, if
    any. *)
Record page := Page { page_state : state; in_flight : option request }.

Section EventLoop.
Context `{JSON}.

(** One turn of the event loop, with the platform readings of that turn.
    A handler that throws, and a [sendMessage] whose promise is rejected,
    leave the object as it was when the exception was raised; the event
    loop reports the error and goes on. *)
Definition handle (p : page) (ev : env * event) : page :=
  let st := page_state p in
  match ev.2 with
  | InputText text => Page (set_messageInput text st) (in_flight p)
  | Send =>
      match sendMessage ev.1 st with
      | (st', Some req) => Page st' (Some req)
      | (st', None) => Page st' (in_flight p)
      end
  | ProviderSettled reply =>
      match in_flight p with
      | Some _ => Page (sendMessage_resume ev.1 reply st) None
      | None => p
      end
  | SelectModel value => Page (modelSelect_onchange ev.1 value st) (in_flight p)
  | ClearChat => Page (clearChat ev.1 st) (in_flight p)
  | OpenHistory fails_after =>
      match showHistory ev.1 fails_after st with
      | Normal st' => Page st' (in_flight p)
      | Throw _ => p
      end
  | CloseHistory => Page (hideHistory st) (in_flight p)
  | DatabaseOpened => Page (initDatabase_onsuccess st) (in_flight p)
  end.

Definition run (p : page) (evs : list (env * event)) : page := foldl handle p evs.

End EventLoop.

(** The page right after [new MaxLLMChatbot()] has returned [this]. *)
Definition start (this : state) : page := Page this None.

(** The elementary changes the event handlers are made of: an appended
    turn, an error line, an edit of the input box, the loading flag, the
    model, a snapshot save and a reset (each completed or cut short by a
    refused write), the history panel, an alert, the arrival of the database
    handle.  [may_clear] tells whether the reset is among them. *)
Inductive atomic `{JSON} (may_clear : bool) (e : env) : state -> state -> Prop :=
  | atomic_turn role content st :
      role = "user" \/ role = "assistant" ->
      atomic may_clear e st (addMessage e role content st)
  | atomic_error content st : atomic may_clear e st (addMessage e "error" content st)
  | atomic_input text st : atomic may_clear e st (set_messageInput text st)
  | atomic_loading loading st : atomic may_clear e st (setLoading loading st)
  | atomic_model value st : atomic may_clear e st (set_currentModel value st)
  | atomic_save st : atomic may_clear e st (saveToDatabase e st)
  | atomic_clear st : may_clear = true -> atomic may_clear e st (clearChat e st)
  | atomic_panel shown sessions st :
      atomic may_clear e st (set_history_panel sessions shown st)
  | atomic_alert texts st : atomic may_clear e st (set_alerts texts st)
  | atomic_db st : atomic may_clear e st (initDatabase_onsuccess st).

Definition is_clear (ev : event) : bool :=
  match ev with
  | ClearChat => true
  | _ => false
  end.


(** *** Properties stated over these *)

(** The line [addMessage] and [addMessageToUI] put on the page for a
    message. *)
Definition line_of (m : message) : string * string :=
  ("message " +:+ role m, content m).

(** What the page shows agrees with the live history: the lines other than
    error lines are the lines of the history, and the history holds no
    message of role [error]. *)
Definition page_shows_history (st : state) : Prop :=
  filter (fun l : string * string => l.1 ≠ "message error") (chatMessages st)
  = line_of <$> chatHistory st
  /\ Forall (fun m => role m ≠ "error") (chatHistory st).

(** The (role, content) pairs the store holds for the session of [st]. *)
Definition active_session_turns (st : state) : list message :=
  (fun r => Message (rec_role r) (rec_content r))
    <$> filter (fun r => rec_sessionId r = sessionId st) (chat_records st).

Fixpoint all_white_space (s : string) : bool :=
  match s with
  | EmptyString => true
  | String a s' => is_white_space a && all_white_space s'
  end.

(** ** Concrete runs *)

Module Examples.
Definition e1 : env :=
  Env 1700000000000 "2023-11-14T22:13:20.000Z" false false (fun _ => false).
Definition e2 : env :=
  Env 1700000005000 "2023-11-14T22:13:25.000Z" false false (fun _ => false).
Definition e3 : env :=
  Env 1700000009000 "2023-11-14T22:13:29.000Z" false false (fun _ => false).

(** The platform of [e2] and [e3] with IndexedDB refusing writes and scans,
    and with a storage that refuses every write. *)
Definition e2_closed : env :=
  Env 1700000005000 "2023-11-14T22:13:25.000Z" true true (fun _ => false).
Definition e3_full : env :=
  Env 1700000009000 "2023-11-14T22:13:29.000Z" false false (fun _ => true).

(** A first visit: nothing stored yet, the database never opens.  This is
    the object the constructor returns then, see [constructor_first_visit]. *)
Definition degraded : state :=
  State (Some "sk-or-v1-test") default_model [] false false
    "session-1700000000000"
    (<["maxllm_session_id" := "session-1700000000000"]> ∅) [] 1
    [] "" None false [] [].

(** The same without an API key. *)
Definition no_key : state :=
  State None default_model [] false false
    "session-1700000000000"
    (<["maxllm_session_id" := "session-1700000000000"]> ∅) [] 1
    [] "" None false [] [].

(** The same visit once the database handle has arrived. *)
Definition fresh : state := initDatabase_onsuccess degraded.

(** One accepted user turn. *)
Definition one_turn : state := addMessage e2 "user" "hi" fresh.

(** The reply to it. *)
Definition two_turns : state := addMessage e3 "assistant" "hello" one_turn.

(** A second session: the chat is cleared after the first turn and the
    user goes on. *)
Definition e4 : env :=
  Env 1700000012000 "2023-11-14T22:13:32.000Z" false false (fun _ => false).

Definition two_sessions : state :=
  addMessage e4 "user" "again" (clearChat (H := reference_JSON) e3 one_turn).

(** The user has typed a short message, and a very long one. *)
Definition typed_hello : state := set_messageInput "  hello " fresh.

Fixpoint repeat_string (n : nat) (s : string) : string :=
  match n with
  | O => EmptyString
  | S n' => s +:+ repeat_string n' s
  end.

Definition typed_long : state :=
  set_messageInput (repeat_string 500 "too long ") fresh.
(** Eleven alternating turns. *)
Definition eleven_turns : list message :=
  (fun n : nat => Message (if Nat.even n then "user" else "assistant") (pretty n))
    <$> seq 1 11.

(** The page of the first visit with its database open, and a visit: the
    user types, sends, and the provider answers. *)
Definition opened : page := Page fresh None.

Definition visit : list (env * event) :=
  [(e2, InputText "  hello "); (e2, Send); (e3, ProviderSettled (Normal "hi there"))].

End Examples.

(** ** Context window: proofs *)

Lemma Array_slice_neg_last_n {A} (n : nat) (l : list A) :
  Array_slice (- Z.of_nat (S n)) l = last_n (S n) l.
Proof.
  unfold Array_slice, last_n.
  replace (- Z.of_nat (S n) <? 0) with true by (symmetry; apply Z.ltb_lt; lia).
  rewrite take_reverse, reverse_involutive.
  f_equal. lia.
Qed.

Lemma truthy_length (s : string) :
  (if truthy s then Z.of_nat (String.length s) else 0) = Z.of_nat (String.length s).
Proof. by destruct s. Qed.

Lemma reduce_well_formed (ms : list message) (acc : Z) :
  reduce add_content_length (Some <$> ms) acc = Normal (acc + total_chars ms).
Proof.
  revert acc. induction ms as [|m ms IH]; intros acc; simpl.
  - f_equal. lia.
  - rewrite IH, truthy_length. f_equal. lia.
Qed.

Lemma Math_ceil_div_4_bounds (a : Z) :
  4 * (Math_ceil_div a 4 - 1) < a <= 4 * Math_ceil_div a 4.
Proof.
  unfold Math_ceil_div.
  pose proof (Z.div_mod (- a) 4 ltac:(lia)).
  pose proof (Z.mod_pos_bound (- a) 4 ltac:(lia)). lia.
Qed.

Lemma Math_ceil_div_4_mono (a b : Z) :
  a <= b -> Math_ceil_div a 4 <= Math_ceil_div b 4.
Proof.
  intros Hab. pose proof (Math_ceil_div_4_bounds a).
  pose proof (Math_ceil_div_4_bounds b). lia.
Qed.

(** ** The reference implementation meets the interface *)

Module ReferenceFacts.
Import Reference.

Lemma read_body_quote (a : ascii) (t : string) :
  read_body (quote_code_unit a +:+ t)
  = '(s, r) ← read_body t; Some (String a s, r).
Proof. destruct a as [[] [] [] [] [] [] [] []]; reflexivity. Qed.

Lemma read_body_write_body (s k : string) :
  read_body (write_body s k) = Some (s, k).
Proof.
  induction s as [|a s IH]; simpl.
  - reflexivity.
  - rewrite read_body_quote, IH. reflexivity.
Qed.

Lemma read_string_write_string (s k : string) :
  read_string (write_string s k) = Some (s, k).
Proof. unfold read_string, write_string. simpl. apply read_body_write_body. Qed.

Lemma read_key_write_key (name k : string) :
  read_key name (write_key name k) = Some k.
Proof.
  unfold read_key, write_key. rewrite read_string_write_string. simpl.
  rewrite String.eqb_refl. reflexivity.
Qed.

Local Arguments write_string : simpl never.
Local Arguments write_key : simpl never.
Local Arguments read_string : simpl never.
Local Arguments read_key : simpl never.

Local Ltac roundtrip :=
  repeat first
    [ rewrite read_key_write_key
    | rewrite read_string_write_string
    | progress simpl ].

Lemma read_message_write_message (m : message) (k : string) :
  read_message (write_message m k) = Some (m, k).
Proof.
  destruct m as [ro co]. unfold read_message, write_message.
  roundtrip. reflexivity.
Qed.

Lemma expect_bracket_write_message (m : message) (k : string) :
  expect "]" (write_message m k) = None.
Proof. reflexivity. Qed.

Lemma read_messages_write_messages (ms : list message) (k : string) (fuel : nat) :
  (length ms <= fuel)%nat ->
  read_messages fuel (write_messages ms k) = Some (ms, k).
Proof.
  revert fuel. induction ms as [|m ms IH]; intros fuel Hfuel.
  - destruct fuel; reflexivity.
  - destruct fuel as [|fuel]; [simpl in Hfuel; lia|].
    destruct ms as [|m' ms].
    + cbn [write_messages read_messages].
      rewrite expect_bracket_write_message, read_message_write_message.
      reflexivity.
    + change (write_messages (m :: m' :: ms) k)
        with (write_message m (String "," (write_messages (m' :: ms) k))).
      cbn [read_messages].
      rewrite expect_bracket_write_message, read_message_write_message.
      cbn [mbind option_bind].
      change (expect "," (String "," ?r)) with (Some r).
      cbv beta iota.
      rewrite IH by (simpl in *; lia). reflexivity.
Qed.

Lemma length_append (s t : string) :
  String.length (s +:+ t) = (String.length s + String.length t)%nat.
Proof. induction s as [|a s IH]; simpl; [done|]. by rewrite IH. Qed.

Lemma write_body_length (s k : string) :
  (String.length k < String.length (write_body s k))%nat.
Proof.
  induction s as [|a s IH]; simpl; [lia|].
  rewrite length_append. lia.
Qed.

Lemma write_message_length (m : message) (k : string) :
  (String.length k < String.length (write_message m k))%nat.
Proof.
  unfold write_message, write_key, write_string. simpl.
  repeat match goal with
         | |- context [write_body ?s ?r] =>
             lazymatch goal with
             | _ : (String.length r < String.length (write_body s r))%nat |- _ => fail
             | _ => pose proof (write_body_length s r)
             end
         end.
  simpl in *. lia.
Qed.

Lemma write_messages_length (ms : list message) (k : string) :
  (length ms <= String.length (write_messages ms k))%nat.
Proof.
  induction ms as [|m ms IH]; [simpl; lia|].
  destruct ms as [|m' ms].
  - pose proof (write_message_length m (String "]" k)).
    cbn [write_messages length] in *. lia.
  - change (write_messages (m :: m' :: ms) k)
      with (write_message m (String "," (write_messages (m' :: ms) k))).
    pose proof (write_message_length m (String "," (write_messages (m' :: ms) k))).
    simpl String.length in *. simpl length in *. lia.
Qed.

Lemma read_snapshot_write_snapshot (d : snapshot) :
  read_snapshot (write_snapshot d "") = Some (d, "").
Proof.
  destruct d as [h m t]. unfold read_snapshot.
  set (fuel := String.length _).
  assert (length h <= fuel)%nat as Hfuel.
  { subst fuel. unfold write_snapshot, write_key, write_string. simpl.
    pose proof (write_messages_length h
      (String "," (write_key "currentModel" (write_string m
        (String "," (write_key "timestamp" (write_string t "}"))))))).
    unfold write_key, write_string in *. simpl in *. lia. }
  clearbody fuel. unfold write_snapshot. roundtrip.
  rewrite read_messages_write_messages by done.
  roundtrip. reflexivity.
Qed.

Lemma parse_stringify (d : snapshot) :
  parse (stringify d)
  = ParsedObject (Some (snap_chatHistory d)) (Some (snap_currentModel d)).
Proof.
  unfold parse, stringify. rewrite read_snapshot_write_snapshot.
  reflexivity.
Qed.

Lemma stringify_truthy (d : snapshot) : truthy (stringify d) = true.
Proof. reflexivity. Qed.
End ReferenceFacts.

Lemma reference_JSON_faithful : JSON_faithful (H := reference_JSON).
Proof.
  split; [apply ReferenceFacts.parse_stringify|apply ReferenceFacts.stringify_truthy].
Qed.

(** ** Sorting: what [Array_sort] guarantees *)

Section ArraySort.
Context {A : Type} (cmp : A -> A -> Z) (key : A -> Z) (P : A -> Prop).
Hypothesis cmp_key : forall x y, P x -> P y -> (cmp x y <= 0 <-> key x <= key y).

Lemma sort_insert_perm (x : A) (l : list A) : sort_insert cmp x l ≡ₚ x :: l.
Proof.
  induction l as [|y l IH]; simpl; [done|].
  destruct (cmp x y <=? 0); [done|].
  rewrite IH. apply Permutation_swap.
Qed.

Lemma Array_sort_perm (l : list A) : Array_sort cmp l ≡ₚ l.
Proof.
  induction l as [|x l IH]; simpl; [done|].
  fold (Array_sort cmp l). by rewrite sort_insert_perm, IH.
Qed.

Lemma Array_sort_Forall (Q : A -> Prop) (l : list A) :
  Forall Q l -> Forall Q (Array_sort cmp l).
Proof. intros HQ. by rewrite Array_sort_perm. Qed.

Lemma sort_insert_sorted (x : A) (l : list A) :
  P x -> Forall P l ->
  StronglySorted (fun a b => key a <= key b) l ->
  StronglySorted (fun a b => key a <= key b) (sort_insert cmp x l).
Proof.
  intros Hx HP Hs. induction Hs as [|y l Hs IH Hy]; simpl.
  - by repeat constructor.
  - apply Forall_cons in HP as [Py HP].
    destruct (Z.leb_spec (cmp x y) 0) as [Hle|Hgt].
    + apply cmp_key in Hle; [|done..].
      constructor; [by constructor|].
      constructor; [done|].
      eapply Forall_impl; [exact Hy|]. simpl. intros; lia.
    + assert (key y < key x) as Hlt.
      { destruct (Z.le_gt_cases (key x) (key y)) as [Hc|Hc]; [|lia].
        apply cmp_key in Hc; [lia|done..]. }
      constructor; [by apply IH|].
      rewrite sort_insert_perm. constructor; [lia|done].
Qed.

Lemma Array_sort_sorted (l : list A) :
  Forall P l -> StronglySorted (fun a b => key a <= key b) (Array_sort cmp l).
Proof.
  induction l as [|x l IH]; intros HP; simpl; [constructor|].
  apply Forall_cons in HP as [Px HP]. fold (Array_sort cmp l).
  apply sort_insert_sorted; [done| |by apply IH].
  by apply Array_sort_Forall.
Qed.

Lemma sort_insert_stable (k : Z) (x : A) (l : list A) :
  P x -> Forall P l ->
  filter (fun a => key a = k) (sort_insert cmp x l)
  = filter (fun a => key a = k) (x :: l).
Proof.
  intros Px HP. induction l as [|y l IH]; simpl; [done|].
  apply Forall_cons in HP as [Py HP].
  destruct (Z.leb_spec (cmp x y) 0) as [Hle|Hgt]; [done|].
  assert (key y ≠ key x) as Hne.
  { intros Heq. assert (cmp x y <= 0); [apply cmp_key; [done..|lia]|lia]. }
  rewrite (filter_cons _ y), IH, !filter_cons by done.
  repeat case_decide; congruence.
Qed.

Lemma Array_sort_stable (k : Z) (l : list A) :
  Forall P l ->
  filter (fun a => key a = k) (Array_sort cmp l) = filter (fun a => key a = k) l.
Proof.
  induction l as [|x l IH]; intros HP; simpl; [done|].
  apply Forall_cons in HP as [Px HP]. fold (Array_sort cmp l).
  rewrite sort_insert_stable by (try apply Array_sort_Forall; done).
  rewrite !filter_cons, IH by done. done.
Qed.
End ArraySort.

(** A list ordered by a key that keeps, for every key, the elements of
    another such list in the same order is that list: the stable sorted
    arrangement is unique, whatever algorithm computes it. *)
Lemma stable_sorted_unique {A} (key : A -> Z) (l1 l2 : list A) :
  StronglySorted (fun a b => key a <= key b) l1 ->
  StronglySorted (fun a b => key a <= key b) l2 ->
  (forall k, filter (fun a => key a = k) l1 = filter (fun a => key a = k) l2) ->
  l1 = l2.
Proof.
  intros Hs1. revert l2.
  induction Hs1 as [|x l1 Hs1 IH Hx]; intros l2 Hs2 Hf.
  - destruct l2 as [|y l2]; [done|].
    specialize (Hf (key y)). rewrite filter_cons_True in Hf by done. done.
  - destruct Hs2 as [|y l2 Hs2 Hy].
    { specialize (Hf (key x)). rewrite filter_cons_True in Hf by done. done. }
    assert (key x = key y) as Hk.
    { destruct (Z.lt_trichotomy (key x) (key y)) as [Hlt|[Heq|Hgt]]; [|done|].
      - specialize (Hf (key x)).
        rewrite filter_cons_True, filter_cons_False in Hf by (done || lia).
        assert (x ∈ filter (fun a => key a = key x) l2) as Hin
          by (rewrite <- Hf; left).
        apply list_elem_of_filter in Hin as [_ Hin].
        rewrite Forall_forall in Hy. specialize (Hy _ Hin). simpl in Hy. lia.
      - specialize (Hf (key y)).
        rewrite filter_cons_False, (filter_cons_True _ y) in Hf by (done || lia).
        assert (y ∈ filter (fun a => key a = key y) l1) as Hin
          by (rewrite Hf; left).
        apply list_elem_of_filter in Hin as [_ Hin].
        rewrite Forall_forall in Hx. specialize (Hx _ Hin). simpl in Hx. lia. }
    pose proof (Hf (key x)) as Hfx.
    rewrite filter_cons_True, filter_cons_True in Hfx by done.
    injection Hfx as -> Hfx. f_equal. apply IH; [done|].
    intros k. destruct (decide (key y = k)) as [<-|Hne]; [done|].
    specialize (Hf k). by rewrite !filter_cons_False in Hf by done.
Qed.

(** Hence every stable sort by a comparator that orders by [key] returns
    what [Array_sort] returns. *)
Lemma Array_sort_canonical {A} (cmp : A -> A -> Z) (key : A -> Z) (l l' : list A) :
  (forall x y, cmp x y <= 0 <-> key x <= key y) ->
  StronglySorted (fun a b => key a <= key b) l' ->
  (forall k, filter (fun a => key a = k) l' = filter (fun a => key a = k) l) ->
  l' = Array_sort cmp l.
Proof.
  intros Hcmp Hsorted Hstable.
  apply (stable_sorted_unique key); [done| |].
  - apply (Array_sort_sorted cmp key (fun _ => True)); [auto|].
    by apply Forall_true.
  - intros k. rewrite Hstable. symmetry.
    apply (Array_sort_stable cmp key (fun _ => True)); [auto|].
    by apply Forall_true.
Qed.

(** ** Grouping: the [Map] of [readAllSessions] against the spec's grouping *)

Lemma first_seen_elem_of (ids : list string) (x : string) :
  x ∈ first_seen ids <-> x ∈ ids.
Proof.
  induction ids as [|id ids IH]; simpl; [done|].
  rewrite !elem_of_cons, list_elem_of_filter, IH.
  destruct (decide (x = id)); intuition congruence.
Qed.

Lemma first_seen_NoDup (ids : list string) : NoDup (first_seen ids).
Proof.
  induction ids as [|id ids IH]; simpl; constructor.
  - rewrite list_elem_of_filter. intuition congruence.
  - by apply NoDup_filter.
Qed.

Lemma first_seen_snoc (ids : list string) (y : string) :
  first_seen (ids ++ [y])
  = first_seen ids ++ (if decide (y ∈ ids) then [] else [y]).
Proof.
  induction ids as [|id ids IH].
  - reflexivity.
  - change (first_seen ((id :: ids) ++ [y]))
      with (id :: filter (fun x => x ≠ id) (first_seen (ids ++ [y]))).
    rewrite IH, filter_app. simpl. f_equal. f_equal.
    destruct (decide (y = id)) as [->|Hne].
    + rewrite (decide_True (P := id ∈ id :: ids)) by left.
      case_decide; [done|]. by rewrite filter_cons_False, filter_nil by auto.
    + destruct (decide (y ∈ ids)) as [Hin|Hin].
      * rewrite decide_True by (by right). done.
      * rewrite decide_False by (rewrite elem_of_cons; intuition congruence).
        by rewrite filter_cons_True.
Qed.

Lemma group_by_session_keys (scan : list chat_record) :
  (group_by_session scan).*1 = first_seen (rec_sessionId <$> scan).
Proof.
  unfold group_by_session. rewrite <- list_fmap_compose.
  apply list_fmap_id.
Qed.

Lemma collect_group_by_session (scan : list chat_record) (rec : chat_record) :
  collect (group_by_session scan) rec = group_by_session (scan ++ [rec]).
Proof.
  unfold collect, Map_has, Map_set, Map_has.
  rewrite group_by_session_keys.
  unfold group_by_session.
  rewrite (fmap_app rec_sessionId). cbn [fmap list_fmap].
  rewrite first_seen_snoc, fmap_app.
  set (sid := rec_sessionId rec).
  assert (forall ids : list string,
    (fun id => (id, filter (fun r => rec_sessionId r = id) (scan ++ [rec]))) <$> ids
    = Map_get_push sid rec
        ((fun id => (id, filter (fun r => rec_sessionId r = id) scan)) <$> ids))
    as Hpush.
  { intros ids. unfold Map_get_push. rewrite <- list_fmap_compose.
    apply list_fmap_ext. intros _ id _. simpl. rewrite filter_app.
    case_bool_decide as Hid.
    - subst id. by rewrite (filter_cons_True _ rec) by done.
    - rewrite (filter_cons_False _ rec) by (fold sid; congruence).
      by rewrite filter_nil, app_nil_r. }
  destruct (decide (sid ∈ rec_sessionId <$> scan)) as [Hin|Hin].
  - rewrite bool_decide_true by (by apply first_seen_elem_of).
    simpl. rewrite app_nil_r. symmetry. apply Hpush.
  - rewrite bool_decide_false by (by rewrite first_seen_elem_of).
    simpl. rewrite Hpush. unfold Map_get_push. rewrite fmap_app. f_equal.
    simpl. rewrite bool_decide_true by done. simpl.
    rewrite filter_app, (filter_cons_True _ rec), filter_nil by done.
    do 2 f_equal. symmetry.
    destruct (filter _ scan) as [|r l] eqn:Hf; [done|].
    assert (r ∈ filter (fun r => rec_sessionId r = sid) scan) as Hr
      by (rewrite Hf; left).
    apply list_elem_of_filter in Hr as [<- Hr].
    destruct Hin. by apply list_elem_of_fmap_2.
Qed.

Lemma foldl_collect (scan : list chat_record) :
  foldl collect [] scan = group_by_session scan.
Proof.
  induction scan as [|rec scan IH] using rev_ind; [done|].
  by rewrite foldl_snoc, IH, collect_group_by_session.
Qed.

Lemma group_by_session_nonempty (scan : list chat_record) :
  Forall (fun g : string * list chat_record => g.2 ≠ []) (group_by_session scan).
Proof.
  unfold group_by_session. rewrite Forall_fmap. apply Forall_forall.
  intros id Hid. simpl. rewrite first_seen_elem_of in Hid.
  apply list_elem_of_fmap in Hid as (r & -> & Hr).
  intros Hnil.
  assert (r ∈ filter (fun r0 => rec_sessionId r0 = rec_sessionId r) scan) as Hin
    by (by apply list_elem_of_filter).
  rewrite Hnil in Hin. by apply not_elem_of_nil in Hin.
Qed.

(** ** The cursor callbacks *)

Lemma dispatch_records (records : list chat_record) (r : reader) :
  foldl dispatch r (CursorSuccess ∘ Some <$> records)
  = Reader (foldl collect (result r) records) (settled r).
Proof.
  revert r. induction records as [|rec records IH]; intros [m p]; simpl; [done|].
  rewrite IH. done.
Qed.

Lemma dispatch_not_rejected (events : list cursor_event) (r : reader) :
  (forall e, settled r ≠ Rejected e) ->
  forall e, settled (foldl dispatch r events) ≠ Rejected e.
Proof.
  revert r. induction events as [|ev events IH]; intros r Hr; simpl; [done|].
  apply IH. intros e.
  destruct ev as [[rec|]|]; simpl; [apply Hr| |];
    destruct (settled r) eqn:Hs; simpl; try done; by rewrite <- Hs.
Qed.

Lemma sort_insert_ext {A} (cmp1 cmp2 : A -> A -> Z) (x : A) (l : list A) :
  (forall y, y ∈ l -> cmp1 x y = cmp2 x y) ->
  sort_insert cmp1 x l = sort_insert cmp2 x l.
Proof.
  induction l as [|y l IH]; intros Hagree; simpl; [done|].
  rewrite (Hagree y) by left.
  destruct (cmp2 x y <=? 0); [done|].
  f_equal. apply IH. intros z Hz. apply Hagree. by right.
Qed.

Lemma Array_sort_ext {A} (P : A -> Prop) (cmp1 cmp2 : A -> A -> Z) (l : list A) :
  (forall x y, P x -> P y -> cmp1 x y = cmp2 x y) ->
  Forall P l -> Array_sort cmp1 l = Array_sort cmp2 l.
Proof.
  intros Hagree. induction 1 as [|x l Hx Hl IH]; simpl; [done|].
  fold (Array_sort cmp1 l). fold (Array_sort cmp2 l). rewrite IH.
  apply sort_insert_ext. intros y Hy.
  apply Hagree; [done|].
  rewrite Array_sort_perm in Hy. rewrite Forall_forall in Hl. by apply Hl.
Qed.

Lemma Array_sort_nonempty {A} (cmp : A -> A -> Z) (l : list A) :
  l ≠ [] -> Array_sort cmp l ≠ [].
Proof.
  intros Hl Hs. apply Hl. apply Permutation_nil_r.
  rewrite <- Hs. symmetry. apply Array_sort_perm.
Qed.

Lemma session_views_nonempty (scan : list chat_record) :
  Forall (fun v => sv_records v ≠ []) (session_views scan).
Proof.
  unfold session_views. rewrite Forall_fmap.
  eapply Forall_impl; [apply group_by_session_nonempty|].
  intros g Hg. simpl. by apply Array_sort_nonempty.
Qed.

(** On views that hold a record the comparator of the source is the
    difference of the first timestamps. *)
Lemma by_first_timestamp_desc_latest_first (a b : SessionView) :
  sv_records a ≠ [] -> sv_records b ≠ [] ->
  by_first_timestamp_desc a b = latest_first a b.
Proof.
  unfold by_first_timestamp_desc, latest_first, first_timestamp, head_timestamp.
  by destruct a as [ida [|ra la]], b as [idb [|rb lb]].
Qed.

Lemma readAllSessions_full (e : env) (st : state) :
  db st = true -> idb_scan_throws e = false ->
  readAllSessions e st (cursor_events (chat_records st) None)
  = Resolved (reconstruct (chat_records st)).
Proof.
  intros Hdb He. unfold readAllSessions, cursor_events. rewrite Hdb, He.
  rewrite foldl_app, dispatch_records. simpl.
  rewrite foldl_collect. unfold reconstruct. f_equal.
  replace ((fun '(id, records) =>
              {| sv_sessionId := id; sv_records := Array_sort by_timestamp records |})
             <$> group_by_session (chat_records st))
    with (session_views (chat_records st)).
  - apply (Array_sort_ext (fun v => sv_records v ≠ [])).
    + apply by_first_timestamp_desc_latest_first.
    + apply session_views_nonempty.
  - unfold session_views. apply list_fmap_ext. by intros _ [id records] _.
Qed.

Lemma readAllSessions_failed (e : env) (st : state) (k : nat) :
  db st = true -> idb_scan_throws e = false ->
  readAllSessions e st (cursor_events (chat_records st) (Some k)) = Resolved [].
Proof.
  intros Hdb He. unfold readAllSessions, cursor_events. rewrite Hdb, He.
  by rewrite foldl_app, dispatch_records.
Qed.

(** ** Frame lemmas for the methods *)

Lemma addMessage_error (e : env) (c : string) (st : state) :
  addMessage e "error" c st
  = set_chatMessages (chatMessages st ++ [("message error", c)]) st.
Proof. reflexivity. Qed.

Lemma addRecordToDb_frame (e : env) (r c : string) (st : state) :
  exists records k, addRecordToDb e r c st = set_object_store records k st.
Proof.
  unfold addRecordToDb, IDBObjectStore_add.
  destruct (db st), (idb_write_fails e); simpl; eauto;
    exists (chat_records st), (key_generator st); by destruct st.
Qed.

Lemma addRecordToDb_degraded (e : env) (r c : string) (st : state) :
  db st = false -> addRecordToDb e r c st = st.
Proof. unfold addRecordToDb. by intros ->. Qed.

Ltac frame_addRecordToDb :=
  match goal with
  | |- context [addRecordToDb ?e ?r ?c ?s] =>
      let records := fresh "records" in
      let k := fresh "k" in
      destruct (addRecordToDb_frame e r c s) as (records & k & ->)
  end.

Lemma addMessage_chatHistory (e : env) (r c : string) (st : state) :
  chatHistory (addMessage e r c st)
  = chatHistory st ++ (if bool_decide (r ≠ "error") then [Message r c] else []).
Proof.
  unfold addMessage. cbv zeta. case_bool_decide.
  - by frame_addRecordToDb.
  - simpl. by rewrite app_nil_r.
Qed.

Lemma addMessage_frame (e : env) (r c : string) (st : state) :
  db (addMessage e r c st) = db st
  /\ localStorage (addMessage e r c st) = localStorage st
  /\ sessionId (addMessage e r c st) = sessionId st
  /\ currentModel (addMessage e r c st) = currentModel st
  /\ historyContent (addMessage e r c st) = historyContent st.
Proof.
  unfold addMessage. cbv zeta. case_bool_decide; [|done].
  by frame_addRecordToDb.
Qed.

Lemma turns_of_snoc (calls : list (env * (string * string))) (e : env) (r c : string) :
  turns_of (calls ++ [(e, (r, c))])
  = turns_of calls ++ (if bool_decide (r ≠ "error") then [Message r c] else []).
Proof.
  unfold turns_of. rewrite filter_app, fmap_app. f_equal.
  case_bool_decide.
  - rewrite filter_cons_True; done.
  - rewrite filter_cons_False; [done|]. simpl. auto.
Qed.

Lemma appendTurns_chatHistory (calls : list (env * (string * string))) (st : state) :
  chatHistory (appendTurns calls st) = chatHistory st ++ turns_of calls.
Proof.
  induction calls as [|[e [r c]] calls IH] using rev_ind.
  - simpl. by rewrite app_nil_r.
  - unfold appendTurns in *. rewrite foldl_snoc. simpl.
    by rewrite addMessage_chatHistory, IH, turns_of_snoc, app_assoc.
Qed.

Lemma appendTurns_frame (calls : list (env * (string * string))) (st : state) :
  db (appendTurns calls st) = db st
  /\ localStorage (appendTurns calls st) = localStorage st
  /\ historyContent (appendTurns calls st) = historyContent st.
Proof.
  induction calls as [|[e [r c]] calls IH] using rev_ind; [done|].
  unfold appendTurns in *. rewrite foldl_snoc. simpl in *.
  destruct IH as (IH1 & IH2 & IH3).
  destruct (addMessage_frame e r c
    (foldl (fun st c => addMessage c.1 c.2.1 c.2.2 st) st calls))
    as (-> & -> & _ & _ & ->). done.
Qed.

Lemma appendTurns_degraded (calls : list (env * (string * string))) (st : state) :
  db st = false ->
  chat_records (appendTurns calls st) = chat_records st
  /\ key_generator (appendTurns calls st) = key_generator st.
Proof.
  intros Hdb. induction calls as [|[e [r c]] calls IH] using rev_ind; [done|].
  destruct (appendTurns_frame calls st) as (Hdb1 & _). rewrite Hdb in Hdb1.
  unfold appendTurns in *. rewrite foldl_snoc. simpl.
  unfold addMessage. cbv zeta. case_bool_decide; [|done].
  rewrite addRecordToDb_degraded by done. done.
Qed.

Lemma addRecordToDb_refused (e : env) (r c : string) (st : state) :
  idb_write_fails e = true -> addRecordToDb e r c st = st.
Proof.
  intros He. unfold addRecordToDb, IDBObjectStore_add. rewrite He.
  by destruct (db st).
Qed.

Lemma appendTurns_refused (calls : list (env * (string * string))) (st : state) :
  Forall (fun c : env * (string * string) => idb_write_fails c.1 = true) calls ->
  chat_records (appendTurns calls st) = chat_records st
  /\ key_generator (appendTurns calls st) = key_generator st.
Proof.
  induction calls as [|[e [r c]] calls IH] using rev_ind; intros Hcalls; [done|].
  apply Forall_app in Hcalls as [Hcalls Hc].
  rewrite Forall_singleton in Hc. simpl in Hc.
  destruct (IH Hcalls) as [IHr IHk].
  unfold appendTurns in *. rewrite foldl_snoc. simpl.
  unfold addMessage. cbv zeta. case_bool_decide; [|done].
  by rewrite addRecordToDb_refused.
Qed.

Lemma addMessage_panel (e : env) (r c : string) (st : state) :
  historyBackdrop (addMessage e r c st) = historyBackdrop st
  /\ alerts (addMessage e r c st) = alerts st.
Proof.
  unfold addMessage. cbv zeta. case_bool_decide; [|done].
  by frame_addRecordToDb.
Qed.

Lemma appendTurns_panel (calls : list (env * (string * string))) (st : state) :
  historyBackdrop (appendTurns calls st) = historyBackdrop st
  /\ alerts (appendTurns calls st) = alerts st.
Proof.
  induction calls as [|[e [r c]] calls IH] using rev_ind; [done|].
  unfold appendTurns in *. rewrite foldl_snoc. simpl in *.
  destruct IH as [IH1 IH2].
  by destruct (addMessage_panel e r c
    (foldl (fun st c => addMessage c.1 c.2.1 c.2.2 st) st calls)) as [-> ->].
Qed.

(** ** The context window *)

Lemma last_n_length {A} (n : nat) (l : list A) :
  length (last_n n l) = (n `min` length l)%nat.
Proof. unfold last_n. by rewrite length_reverse, length_take, length_reverse. Qed.

Lemma last_n_suffix {A} (n : nat) (l : list A) :
  take (length l - n) l ++ last_n n l = l.
Proof.
  unfold last_n. rewrite take_reverse, reverse_involutive.
  apply take_drop.
Qed.

(** C3: [buildMessages] is the system instruction, then the last 10
    elements of the history in their order (a suffix of it, all of it when it
    has at most 10 elements), then the new user turn; it has at most 12
    elements, and for an 11-turn history it is the system message, the last
    10 turns and the new turn, 12 in all. *)
Theorem buildMessages_window (h : list message) (c : string) :
  buildMessages h c = system_message :: last_n 10 h ++ [Message "user" c]
  /\ take (length h - 10) h ++ last_n 10 h = h
  /\ length (last_n 10 h) = (10 `min` length h)%nat
  /\ ((length h <= 10)%nat -> last_n 10 h = h)
  /\ (length (buildMessages h c) <= 12)%nat
  /\ (forall a t, h = a :: t -> length t = 10%nat ->
        buildMessages h c = system_message :: t ++ [Message "user" c]
        /\ length (buildMessages h c) = 12%nat).
Proof.
  assert (buildMessages h c = system_message :: last_n 10 h ++ [Message "user" c])
    as Heq.
  { unfold buildMessages. by rewrite <- (Array_slice_neg_last_n 9). }
  pose proof (last_n_length 10 h) as Hlen.
  pose proof (last_n_suffix 10 h) as Hsuf.
  split_and!; try done.
  - intros Hle. revert Hsuf. clear Heq.
    by replace (length h - 10)%nat with 0%nat by lia.
  - rewrite Heq. clear Heq. rewrite length_cons, length_app, Hlen.
    change (length [Message "user" c]) with 1%nat. lia.
  - intros a t -> Ht.
    assert (last_n 10 (a :: t) = t) as Hlast.
    { revert Hsuf. simpl length. rewrite Ht. simpl. by intros [= ?]. }
    rewrite Heq, Hlast. split; [done|].
    simpl. rewrite length_app, Ht. done.
Qed.

Lemma buildMessages_window_witness :
  buildMessages Examples.eleven_turns "new"
  = system_message :: drop 1 Examples.eleven_turns ++ [Message "user" "new"]
  /\ length (buildMessages Examples.eleven_turns "new") = 12%nat
  /\ last_n 10 (take 3 Examples.eleven_turns) = take 3 Examples.eleven_turns.
Proof.
  destruct (buildMessages_window Examples.eleven_turns "new") as (_ & _ & _ & _ & _ & H11).
  destruct (buildMessages_window (take 3 Examples.eleven_turns) "new")
    as (_ & _ & _ & H3 & _).
  destruct (H11 (Message "assistant" "1") (drop 1 Examples.eleven_turns) eq_refl eq_refl)
    as [Hb Hl].
  split; [exact Hb|]. split; [exact Hl|].
  apply H3. simpl. lia.
Defined.

(** C7: on messages with text contents [estimateTokens] is the total
    character length of the contents divided by 4 and rounded up; it is 0 on
    the empty sequence, monotone in the total length, and 0 whenever the
    summation throws. *)
Theorem estimateTokens_ceiling :
  (forall ms : list message,
      estimateTokens (Some <$> ms) = (total_chars ms + 3) / 4
      /\ 4 * (estimateTokens (Some <$> ms) - 1) < total_chars ms
         <= 4 * estimateTokens (Some <$> ms))
  /\ estimateTokens [] = 0
  /\ (forall ms ms' : list message,
        total_chars ms <= total_chars ms' ->
        estimateTokens (Some <$> ms) <= estimateTokens (Some <$> ms'))
  /\ (forall (raw : list (option message)) (e : string),
        reduce add_content_length raw 0 = Throw e -> estimateTokens raw = 0).
Proof.
  assert (forall ms : list message,
    estimateTokens (Some <$> ms) = Math_ceil_div (total_chars ms) 4) as Hest.
  { intros ms. unfold estimateTokens. by rewrite reduce_well_formed. }
  split_and!.
  - intros ms. rewrite Hest.
    pose proof (Math_ceil_div_4_bounds (total_chars ms)) as Hb.
    split; [|done].
    pose proof (Z.div_mod (total_chars ms + 3) 4 ltac:(lia)).
    pose proof (Z.mod_pos_bound (total_chars ms + 3) 4 ltac:(lia)). lia.
  - reflexivity.
  - intros ms ms' Hle. rewrite !Hest. by apply Math_ceil_div_4_mono.
  - intros raw e Hthrow. unfold estimateTokens. by rewrite Hthrow.
Qed.

Lemma estimateTokens_ceiling_witness :
  estimateTokens [Some (Message "user" "hello")]
  <= estimateTokens [Some (Message "user" "hello"); Some (Message "assistant" "hi")]
  /\ estimateTokens [Some (Message "user" "hello"); None] = 0.
Proof.
  destruct estimateTokens_ceiling as (_ & _ & Hmono & Hthrow).
  split.
  - apply (Hmono [Message "user" "hello"]
             [Message "user" "hello"; Message "assistant" "hi"]).
    vm_compute. discriminate.
  - apply (Hthrow _ "TypeError"). reflexivity.
Defined.

(** ** Reset and append *)

(** *** What a write to [localStorage] leaves *)

Lemma localStorage_setItem_frame (e : env) (k v : string) (st : state) :
  exists storage, after (localStorage_setItem e k v st) = set_localStorage storage st.
Proof.
  unfold localStorage_setItem. destruct (setItem_throws e k); simpl; [|by eexists].
  exists (localStorage st). by destruct st.
Qed.

Lemma localStorage_setItem_accepted (e : env) (k v : string) (st : state) :
  setItem_throws e k = false ->
  localStorage_setItem e k v st
  = Outcome (set_localStorage (<[k := v]> (localStorage st)) st) None.
Proof. unfold localStorage_setItem. by intros ->. Qed.

Lemma localStorage_setItem_refused (e : env) (k v : string) (st : state) :
  setItem_throws e k = true ->
  localStorage_setItem e k v st = Outcome st (Some "QuotaExceededError").
Proof. unfold localStorage_setItem. by intros ->. Qed.

(** A write changes at most its own key. *)
Lemma localStorage_setItem_other (e : env) (k v k' : string) (st : state) :
  k' ≠ k ->
  localStorage (localStorage_setItem e k v st) !! k' = localStorage st !! k'.
Proof.
  intros Hk. unfold localStorage_setItem. destruct (setItem_throws e k); [done|].
  simpl. by rewrite lookup_insert_ne.
Qed.

Section SnapshotWrites.
Context `{JSON}.

Lemma saveToDatabase_frame (e : env) (st : state) :
  exists storage, after (saveToDatabase e st) = set_localStorage storage st.
Proof. apply localStorage_setItem_frame. Qed.

Lemma saveToDatabase_accepted (e : env) (st : state) :
  setItem_throws e "maxllm_data" = false ->
  saveToDatabase e st
  = Outcome
      (set_localStorage
         (<["maxllm_data" :=
              JSON_stringify
                (Snapshot (chatHistory st) (currentModel st) (Date_toISOString e))]>
            (localStorage st)) st) None.
Proof. intros He. unfold saveToDatabase. cbv zeta. by apply localStorage_setItem_accepted. Qed.

Lemma saveToDatabase_refused (e : env) (st : state) :
  setItem_throws e "maxllm_data" = true ->
  saveToDatabase e st = Outcome st (Some "QuotaExceededError").
Proof. intros He. unfold saveToDatabase. cbv zeta. by apply localStorage_setItem_refused. Qed.

Lemma saveToDatabase_session (e : env) (st : state) :
  localStorage (saveToDatabase e st) !! "maxllm_session_id"
  = localStorage st !! "maxllm_session_id".
Proof. unfold saveToDatabase. cbv zeta. by apply localStorage_setItem_other. Qed.

(** The three ways [clearChat] can end. *)
Lemma clearChat_cases (e : env) (st : state) :
  let st0 := set_chatHistory [] (set_chatMessages [] st) in
  (setItem_throws e "maxllm_data" = true
   /\ clearChat e st = Outcome st0 (Some "QuotaExceededError"))
  \/ (setItem_throws e "maxllm_data" = false
      /\ setItem_throws e "maxllm_session_id" = true
      /\ clearChat e st
         = Outcome
             (set_sessionId ("session-" +:+ pretty (Date_now e)) (saveToDatabase e st0))
             (Some "QuotaExceededError"))
  \/ (setItem_throws e "maxllm_data" = false
      /\ setItem_throws e "maxllm_session_id" = false
      /\ clearChat e st
         = Outcome
             (set_localStorage
                (<["maxllm_session_id" := "session-" +:+ pretty (Date_now e)]>
                   (localStorage (saveToDatabase e st0)))
                (set_sessionId ("session-" +:+ pretty (Date_now e))
                   (saveToDatabase e st0)))
             None).
Proof.
  intros st0. unfold clearChat. cbv zeta. fold st0.
  destruct (setItem_throws e "maxllm_data") eqn:Hdata.
  - left. split; [done|]. by rewrite saveToDatabase_refused.
  - right. rewrite (saveToDatabase_accepted e st0 Hdata).
    unfold and_then, startNewSession. simpl.
    destruct (setItem_throws e "maxllm_session_id") eqn:Hsid; [left|right].
    + split_and!; [done..|]. by rewrite localStorage_setItem_refused.
    + split_and!; [done..|]. by rewrite localStorage_setItem_accepted.
Qed.

Lemma clearChat_chatHistory (e : env) (st : state) :
  chatHistory (clearChat e st) = [].
Proof.
  destruct (clearChat_cases e st) as [[_ ->]|[(_ & _ & ->)|(_ & _ & ->)]]; [done|..];
    simpl; by destruct (saveToDatabase_frame e (set_chatHistory [] (set_chatMessages [] st)))
      as [storage ->].
Qed.

(** What [clearChat] never touches, and what it always does. *)
Lemma clearChat_frame (e : env) (st : state) :
  chatMessages (clearChat e st) = []
  /\ isLoading (clearChat e st) = isLoading st
  /\ currentModel (clearChat e st) = currentModel st
  /\ db (clearChat e st) = db st
  /\ chat_records (clearChat e st) = chat_records st
  /\ key_generator (clearChat e st) = key_generator st
  /\ apiKey (clearChat e st) = apiKey st
  /\ messageInput (clearChat e st) = messageInput st.
Proof.
  destruct (clearChat_cases e st) as [[_ ->]|[(_ & _ & ->)|(_ & _ & ->)]]; [done|..];
    simpl; by destruct (saveToDatabase_frame e (set_chatHistory [] (set_chatMessages [] st)))
      as [storage ->].
Qed.

(** A reset whose snapshot write is accepted rotates the identifier. *)
Lemma clearChat_sessionId (e : env) (st : state) :
  setItem_throws e "maxllm_data" = false ->
  sessionId (clearChat e st) = "session-" +:+ pretty (Date_now e).
Proof.
  intros Hdata.
  by destruct (clearChat_cases e st) as [[Hd _]|[(_ & _ & ->)|(_ & _ & ->)]];
    [congruence|..].
Qed.
End SnapshotWrites.

(** C1, as amended: [clearChat] empties the live history and the message
    list of the page and leaves the record store and its key generator as
    they were.  When the storage accepts the snapshot write, the slot holds a
    snapshot of the empty history and the current model and the session
    identifier is rotated; the new identifier is persisted when the storage
    accepts that write too, and otherwise stays in the object only.  When the
    storage refuses the snapshot write, [clearChat] throws before the
    rotation: storage and session identifier are as they were. *)
Theorem clearChat_resets `{JSON} (e : env) (st : state) :
  chatHistory (clearChat e st) = []
  /\ chatMessages (clearChat e st) = []
  /\ chat_records (clearChat e st) = chat_records st
  /\ key_generator (clearChat e st) = key_generator st
  /\ (setItem_throws e "maxllm_data" = false ->
      localStorage (clearChat e st) !! "maxllm_data"
      = Some (JSON_stringify (Snapshot [] (currentModel st) (Date_toISOString e)))
      /\ sessionId (clearChat e st) = "session-" +:+ pretty (Date_now e)
      /\ (setItem_throws e "maxllm_session_id" = false ->
          thrown (clearChat e st) = None
          /\ localStorage (clearChat e st) !! "maxllm_session_id"
             = Some (sessionId (clearChat e st)))
      /\ (setItem_throws e "maxllm_session_id" = true ->
          thrown (clearChat e st) = Some "QuotaExceededError"
          /\ localStorage (clearChat e st) !! "maxllm_session_id"
             = localStorage st !! "maxllm_session_id"))
  /\ (setItem_throws e "maxllm_data" = true ->
      thrown (clearChat e st) = Some "QuotaExceededError"
      /\ localStorage (clearChat e st) = localStorage st
      /\ sessionId (clearChat e st) = sessionId st).
Proof.
  destruct (clearChat_frame e st) as (Hpage & _ & _ & _ & Hrec & Hkey & _).
  split_and!; [apply clearChat_chatHistory|done..| |].
  - intros Hdata.
    destruct (clearChat_cases e st) as [[Hd _]|[(_ & Hs & Heq)|(_ & Hs & Heq)]];
      [congruence|..]; rewrite Heq;
      rewrite (saveToDatabase_accepted e _ Hdata); simpl.
    + split_and!; [by rewrite lookup_insert_eq|done|congruence|].
      intros _. split; [done|]. by rewrite lookup_insert_ne.
    + split_and!; [|done| |congruence].
      * rewrite lookup_insert_ne by done. by rewrite lookup_insert_eq.
      * intros _. split; [done|]. by rewrite lookup_insert_eq.
  - intros Hdata.
    destruct (clearChat_cases e st) as [[_ ->]|[(Hd & _)|(Hd & _)]]; [done|congruence..].
Qed.

Lemma clearChat_resets_witness :
  localStorage (clearChat (H := reference_JSON) Examples.e3 Examples.one_turn)
    !! "maxllm_session_id"
  = Some "session-1700000009000"
  /\ thrown (clearChat (H := reference_JSON) Examples.e3_full Examples.one_turn)
     = Some "QuotaExceededError"
  /\ sessionId (clearChat (H := reference_JSON) Examples.e3_full Examples.one_turn)
     = "session-1700000000000".
Proof.
  destruct (clearChat_resets (H := reference_JSON) Examples.e3 Examples.one_turn)
    as (_ & _ & _ & _ & Hok & _).
  destruct (clearChat_resets (H := reference_JSON) Examples.e3_full Examples.one_turn)
    as (_ & _ & _ & _ & _ & Hfull).
  destruct (Hok eq_refl) as (_ & Hsid & Hstored & _).
  destruct (Hstored eq_refl) as [_ Hlookup].
  destruct (Hfull eq_refl) as (Hthrown & _ & Hkept).
  split_and!.
  - rewrite Hlookup, Hsid. reflexivity.
  - exact Hthrown.
  - rewrite Hkept. reflexivity.
Defined.

(** C1, as first stated, fails: a record persisted before the reset is
    still in the store after it. *)
Lemma clearChat_keeps_records :
  chat_records (clearChat (H := reference_JSON) Examples.e3 Examples.one_turn)
  = [ChatRecord 1 "session-1700000000000" 1700000005000 "user" "hi"
       "deepseek/deepseek-r1:free"]
  /\ chat_records (clearChat (H := reference_JSON) Examples.e3 Examples.one_turn)
     ≠ [].
Proof. split; [by vm_compute|]. by vm_compute. Qed.

(** C2: after a reset, the live history is the ordered sequence of the
    (role, content) pairs appended with a role other than [error]; in
    general the appended pairs extend the history in order.  An append with
    role [error] only adds a line to the page: live history, record store,
    key generator and [localStorage] stay as they were. *)
Theorem appendTurns_live_history `{JSON} (e0 : env) (st : state)
    (calls : list (env * (string * string))) :
  chatHistory (appendTurns calls (clearChat e0 st)) = turns_of calls
  /\ chatHistory (appendTurns calls st) = chatHistory st ++ turns_of calls
  /\ (forall (e : env) (c : string),
        addMessage e "error" c st
        = set_chatMessages (chatMessages st ++ [("message error", c)]) st
        /\ chatHistory (addMessage e "error" c st) = chatHistory st
        /\ chat_records (addMessage e "error" c st) = chat_records st
        /\ key_generator (addMessage e "error" c st) = key_generator st
        /\ localStorage (addMessage e "error" c st) = localStorage st).
Proof.
  split_and!.
  - by rewrite appendTurns_chatHistory, clearChat_chatHistory.
  - apply appendTurns_chatHistory.
  - intros e c. by rewrite addMessage_error.
Qed.

(** ** Sending *)

(** C9: with an empty trimmed input, or a request in flight, or no API key,
    [sendMessage] returns at once, issues no request and leaves the whole
    state, live history, [localStorage] and record store included, as it
    was. *)
Theorem sendMessage_guard (e : env) (st : state) :
  trim (messageInput st) = "" \/ isLoading st = true \/ apiKey st = None ->
  sendMessage e st = (st, None)
  /\ chatHistory (sendMessage e st).1 = chatHistory st
  /\ localStorage (sendMessage e st).1 = localStorage st
  /\ chat_records (sendMessage e st).1 = chat_records st.
Proof.
  intros Hguard.
  assert (sendMessage e st = (st, None)) as ->; [|done].
  unfold sendMessage. cbv zeta.
  destruct Hguard as [-> | [-> | ->]]; simpl; [done| |].
  - by rewrite orb_true_r.
  - by rewrite orb_true_r.
Qed.

Lemma sendMessage_guard_witness :
  sendMessage Examples.e2 (set_messageInput "   " Examples.fresh)
  = (set_messageInput "   " Examples.fresh, None)
  /\ sendMessage Examples.e2 (set_isLoading true Examples.typed_hello)
     = (set_isLoading true Examples.typed_hello, None)
  /\ sendMessage Examples.e2 (set_messageInput "hello" Examples.no_key)
     = (set_messageInput "hello" Examples.no_key, None).
Proof.
  split_and!.
  - apply (sendMessage_guard Examples.e2 (set_messageInput "   " Examples.fresh)).
    left. reflexivity.
  - apply (sendMessage_guard Examples.e2 (set_isLoading true Examples.typed_hello)).
    right. left. reflexivity.
  - apply (sendMessage_guard Examples.e2 (set_messageInput "hello" Examples.no_key)).
    right. right. reflexivity.
Defined.

Lemma truthy_neq (s : string) : s ≠ "" -> truthy s = true.
Proof. by destruct s. Qed.

(** C4: for a turn that passes the entry guard, an estimate above 1000
    rejects it before any request is issued: the only change is the line
    [CLEAR CHAT] added to the page, so live history, record store and
    [localStorage] are untouched; otherwise the user turn is appended and
    the request carrying the built messages is issued. *)
Theorem sendMessage_budget (e : env) (st : state) :
  trim (messageInput st) ≠ "" -> isLoading st = false -> falsy (apiKey st) = false ->
  (1000 < estimateTokens
            (Some <$> buildMessages (chatHistory st) (trim (messageInput st))) ->
   sendMessage e st
   = (set_chatMessages (chatMessages st ++ [("message error", "CLEAR CHAT")]) st,
      None)
   /\ chatHistory (sendMessage e st).1 = chatHistory st
   /\ chat_records (sendMessage e st).1 = chat_records st
   /\ localStorage (sendMessage e st).1 = localStorage st)
  /\ (estimateTokens
        (Some <$> buildMessages (chatHistory st) (trim (messageInput st))) <= 1000 ->
      sendMessage e st
      = (setLoading true
           (set_messageInput "" (addMessage e "user" (trim (messageInput st)) st)),
         Some (Request (currentModel st)
                 (buildMessages (chatHistory st) (trim (messageInput st)))))
      /\ chatHistory (sendMessage e st).1
         = chatHistory st ++ [Message "user" (trim (messageInput st))]).
Proof.
  intros Hmsg Hload Hkey.
  unfold sendMessage. cbv zeta.
  rewrite (truthy_neq _ Hmsg), Hload, Hkey. simpl negb. simpl orb. cbv iota.
  split; intros Hest.
  - apply Z.ltb_lt in Hest. rewrite Hest. by rewrite addMessage_error.
  - apply Z.ltb_ge in Hest. rewrite Hest.
    destruct (addMessage_frame e "user" (trim (messageInput st)) st)
      as (_ & _ & _ & Hmodel & _).
    split.
    + f_equal. simpl. by rewrite Hmodel.
    + simpl. by rewrite addMessage_chatHistory.
Qed.

Lemma sendMessage_budget_witness :
  (sendMessage Examples.e2 Examples.typed_long).2 = None
  /\ chatHistory (sendMessage Examples.e2 Examples.typed_long).1 = []
  /\ chat_records (sendMessage Examples.e2 Examples.typed_long).1 = []
  /\ chatHistory (sendMessage Examples.e2 Examples.typed_hello).1
     = [Message "user" "hello"].
Proof.
  destruct (sendMessage_budget Examples.e2 Examples.typed_long)
    as [Hreject _]; [by vm_compute..|].
  destruct (sendMessage_budget Examples.e2 Examples.typed_hello)
    as [_ Haccept]; [by vm_compute..|].
  destruct Hreject as (Hr & Hh & Hs & _); [by vm_compute|].
  destruct Haccept as (_ & Ha); [by vm_compute|].
  split_and!.
  - rewrite Hr. reflexivity.
  - rewrite Hh. reflexivity.
  - rewrite Hs. reflexivity.
  - rewrite Ha. reflexivity.
Defined.

(** ** Reading the history *)

(** C10: on a database handle whose [transaction] call throws (a
    connection that has been closed) the promise of [readAllSessions] is
    rejected, and [showHistory], which awaits it, throws and displays
    nothing; [addRecordToDb], which makes the same call inside a [try],
    completes on that handle.  When the scan can be opened the promise is
    never rejected, whatever the cursor request fires: a traversal that fails
    after any number of records resolves it with the empty sequence, which
    [showHistory] displays. *)
Theorem readAllSessions_rejects_closed_handle (e : env) (st : state) :
  db st = true ->
  (idb_scan_throws e = true ->
   (forall events : list cursor_event,
       readAllSessions e st events = Rejected "InvalidStateError")
   /\ (forall fails_after : option nat,
         showHistory e fails_after st = Throw "InvalidStateError"))
  /\ (idb_write_fails e = true -> forall r c : string, addRecordToDb e r c st = st)
  /\ (idb_scan_throws e = false ->
      (forall (events : list cursor_event) (err : string),
          readAllSessions e st events ≠ Rejected err)
      /\ (forall k : nat,
            readAllSessions e st (cursor_events (chat_records st) (Some k))
            = Resolved []
            /\ showHistory e (Some k) st
               = Normal (set_history_panel (Some []) true st))).
Proof.
  intros Hdb. split_and!.
  - intros He. split.
    + intros events. unfold readAllSessions. by rewrite Hdb, He.
    + intros fails_after. unfold showHistory, readAllSessions. by rewrite Hdb, He.
  - intros He r c. by apply addRecordToDb_refused.
  - intros He. split.
    + intros events err. unfold readAllSessions. rewrite Hdb, He.
      by apply dispatch_not_rejected.
    + intros k. pose proof (readAllSessions_failed e st k Hdb He) as Hres.
      split; [done|].
      unfold showHistory. by rewrite Hdb, Hres.
Qed.

Lemma readAllSessions_rejects_closed_handle_witness :
  readAllSessions Examples.e2_closed Examples.one_turn
    (cursor_events (chat_records Examples.one_turn) None)
  = Rejected "InvalidStateError"
  /\ showHistory Examples.e2_closed None Examples.one_turn = Throw "InvalidStateError"
  /\ addRecordToDb Examples.e2_closed "user" "again" Examples.one_turn
     = Examples.one_turn
  /\ readAllSessions Examples.e2 Examples.one_turn
       (cursor_events (chat_records Examples.one_turn) (Some 1%nat))
     = Resolved [].
Proof.
  destruct (readAllSessions_rejects_closed_handle Examples.e2_closed Examples.one_turn
              eq_refl) as (Hclosed & Hwrite & _).
  destruct (readAllSessions_rejects_closed_handle Examples.e2 Examples.one_turn
              eq_refl) as (_ & _ & Hopen).
  destruct (Hclosed eq_refl) as [Hrej Hshow].
  destruct (Hopen eq_refl) as [_ Hfail].
  split_and!.
  - apply Hrej.
  - apply Hshow.
  - by apply Hwrite.
  - apply (Hfail 1%nat).
Defined.

(** C8, as amended: while [this.db] is [null], appends keep extending the
    live history in memory and touch neither the handle nor the record store,
    and [showHistory] completes normally: it raises the alert that the history
    is unavailable and changes nothing else, so it hands no sequence of
    sessions to the history panel and does not open it.  On a handle that
    refuses the writes appends complete as well, the live history growing and
    the store staying as it was. *)
Theorem degraded_store (st : state) (calls : list (env * (string * string))) :
  (db st = false ->
   chatHistory (appendTurns calls st) = chatHistory st ++ turns_of calls
   /\ db (appendTurns calls st) = false
   /\ chat_records (appendTurns calls st) = chat_records st
   /\ forall (e : env) (fails_after : option nat),
        showHistory e fails_after (appendTurns calls st)
        = Normal (set_alerts
                    (alerts st ++ ["History unavailable (database not initialized)."])
                    (appendTurns calls st))
        /\ forall st', showHistory e fails_after (appendTurns calls st) = Normal st' ->
                       historyContent st' = historyContent st
                       /\ historyBackdrop st' = historyBackdrop st
                       /\ chatHistory st' = chatHistory st ++ turns_of calls)
  /\ (Forall (fun c : env * (string * string) => idb_write_fails c.1 = true) calls ->
      chatHistory (appendTurns calls st) = chatHistory st ++ turns_of calls
      /\ chat_records (appendTurns calls st) = chat_records st).
Proof.
  split.
  - intros Hdb.
    destruct (appendTurns_frame calls st) as (Hdb' & _ & Hpanel).
    destruct (appendTurns_panel calls st) as [Hshown Halerts].
    rewrite Hdb in Hdb'.
    split_and!; [apply appendTurns_chatHistory|done|by apply appendTurns_degraded|].
    intros e fails_after.
    assert (showHistory e fails_after (appendTurns calls st)
            = Normal (set_alerts
                        (alerts st ++ ["History unavailable (database not initialized)."])
                        (appendTurns calls st))) as Hshow.
    { unfold showHistory. by rewrite Hdb', Halerts. }
    split; [done|].
    intros st'. rewrite Hshow. intros [= <-]. simpl.
    by rewrite Hpanel, Hshown, appendTurns_chatHistory.
  - intros Hcalls. split; [apply appendTurns_chatHistory|].
    by apply appendTurns_refused.
Qed.

Lemma degraded_store_witness :
  chatHistory
    (appendTurns [(Examples.e2, ("user", "hi")); (Examples.e2, ("error", "Error: x"));
                  (Examples.e3, ("assistant", "hello"))] Examples.degraded)
  = [Message "user" "hi"; Message "assistant" "hello"]
  /\ showHistory Examples.e3 None
       (appendTurns [(Examples.e2, ("user", "hi")); (Examples.e2, ("error", "Error: x"));
                     (Examples.e3, ("assistant", "hello"))] Examples.degraded)
     = Normal
         (set_alerts ["History unavailable (database not initialized)."]
            (appendTurns [(Examples.e2, ("user", "hi")); (Examples.e2, ("error", "Error: x"));
                          (Examples.e3, ("assistant", "hello"))] Examples.degraded)).
Proof.
  destruct (degraded_store Examples.degraded
              [(Examples.e2, ("user", "hi")); (Examples.e2, ("error", "Error: x"));
               (Examples.e3, ("assistant", "hello"))])
    as [Hnull _].
  destruct (Hnull eq_refl) as (Hhist & _ & _ & Hshow).
  split.
  - rewrite Hhist. reflexivity.
  - apply (Hshow Examples.e3 None).
Defined.

(** C8, as first stated, fails: with [this.db] still [null], [showHistory]
    produces no sequence of sessions, empty or not.  It leaves the history
    panel without a sequence and closed and raises an alert instead; and the
    scan itself, were it started on the [null] handle, would be rejected
    rather than resolved with the empty sequence. *)
Lemma degraded_history_is_no_sequence :
  (forall st', showHistory Examples.e2 None Examples.degraded = Normal st' ->
               historyContent st' = None
               /\ historyContent st' ≠ Some []
               /\ historyBackdrop st' = false
               /\ alerts st' = ["History unavailable (database not initialized)."])
  /\ showHistory Examples.e2 None Examples.degraded
     = Normal (set_alerts ["History unavailable (database not initialized)."]
                 Examples.degraded)
  /\ readAllSessions Examples.e2 Examples.degraded
       (cursor_events (chat_records Examples.degraded) None)
     = Rejected "TypeError"
  /\ readAllSessions Examples.e2 Examples.degraded
       (cursor_events (chat_records Examples.degraded) None)
     ≠ Resolved [].
Proof.
  split_and!; [|done..].
  intros st' [= <-]. by split_and!.
Qed.

(** ** The snapshot *)

Lemma addMessageToUI_lines (l : list message) (st : state) :
  chatMessages (foldl (fun st msg => addMessageToUI (role msg) (content msg) st) st l)
  = chatMessages st ++ (line_of <$> l)
  /\ chatHistory (foldl (fun st msg => addMessageToUI (role msg) (content msg) st) st l)
     = chatHistory st
  /\ currentModel (foldl (fun st msg => addMessageToUI (role msg) (content msg) st) st l)
     = currentModel st
  /\ console_errors
       (foldl (fun st msg => addMessageToUI (role msg) (content msg) st) st l)
     = console_errors st.
Proof.
  revert st. induction l as [|m l IH]; intros st; simpl.
  - by rewrite app_nil_r.
  - destruct (IH (addMessageToUI (role m) (content m) st)) as (-> & -> & -> & ->).
    simpl. by rewrite <- app_assoc.
Qed.

Lemma addMessageToUI_frame (l : list message) (st : state) :
  isLoading (foldl (fun st msg => addMessageToUI (role msg) (content msg) st) st l)
  = isLoading st
  /\ db (foldl (fun st msg => addMessageToUI (role msg) (content msg) st) st l) = db st
  /\ sessionId (foldl (fun st msg => addMessageToUI (role msg) (content msg) st) st l)
     = sessionId st
  /\ localStorage (foldl (fun st msg => addMessageToUI (role msg) (content msg) st) st l)
     = localStorage st
  /\ chat_records (foldl (fun st msg => addMessageToUI (role msg) (content msg) st) st l)
     = chat_records st
  /\ key_generator (foldl (fun st msg => addMessageToUI (role msg) (content msg) st) st l)
     = key_generator st
  /\ historyContent (foldl (fun st msg => addMessageToUI (role msg) (content msg) st) st l)
     = historyContent st
  /\ messageInput (foldl (fun st msg => addMessageToUI (role msg) (content msg) st) st l)
     = messageInput st.
Proof.
  revert st. induction l as [|x l IH]; intros st; simpl; [done|].
  destruct (IH (addMessageToUI (role x) (content x) st))
    as (-> & -> & -> & -> & -> & -> & -> & ->). done.
Qed.

Section SnapshotFacts.
Context `{JSON}.

(** What a load leaves as it was. *)
Lemma loadFromDatabase_frame (this this' : state) :
  loadFromDatabase this = Some this' ->
  isLoading this' = isLoading this
  /\ db this' = db this
  /\ sessionId this' = sessionId this
  /\ localStorage this' = localStorage this
  /\ chat_records this' = chat_records this
  /\ key_generator this' = key_generator this
  /\ historyContent this' = historyContent this
  /\ messageInput this' = messageInput this.
Proof.
  unfold loadFromDatabase.
  destruct (localStorage this !! "maxllm_data") as [saved|]; [|by intros [= <-]].
  destruct (truthy saved); [|by intros [= <-]].
  destruct (JSON_parse saved) as [| |h m|]; intros [= <-]; simpl; try done.
  match goal with
  | |- context [foldl _ ?s ?l] =>
      destruct (addMessageToUI_frame l s) as (-> & -> & -> & -> & -> & -> & -> & ->)
  end.
  done.
Qed.

(** On an empty page a load shows one line per restored message. *)
Lemma loadFromDatabase_lines (this this' : state) :
  loadFromDatabase this = Some this' ->
  chatMessages this = [] -> chatHistory this = [] ->
  chatMessages this' = line_of <$> chatHistory this'.
Proof.
  intros Hload Hlines Hhist. revert Hload. unfold loadFromDatabase.
  destruct (localStorage this !! "maxllm_data") as [saved|];
    [|intros [= <-]; by rewrite Hlines, Hhist].
  destruct (truthy saved); [|intros [= <-]; by rewrite Hlines, Hhist].
  destruct (JSON_parse saved) as [| |h m|]; intros [= <-]; simpl;
    try by rewrite Hlines, Hhist.
  match goal with
  | |- context [foldl _ ?s ?l] => destruct (addMessageToUI_lines l s) as (-> & -> & _)
  end.
  simpl. by rewrite Hlines.
Qed.


Lemma load_saved (d : snapshot) (this : state) :
  JSON_faithful ->
  localStorage this !! "maxllm_data" = Some (JSON_stringify d) ->
  exists this', loadFromDatabase this = Some this'
    /\ chatHistory this' = snap_chatHistory d
    /\ currentModel this'
       = (if truthy (snap_currentModel d) then snap_currentModel d else default_model).
Proof.
  intros [Hparse Htruthy] Hslot. unfold loadFromDatabase.
  rewrite Hslot, Htruthy, Hparse. eexists. split; [reflexivity|]. simpl.
  match goal with
  | |- context [foldl _ ?s ?l] => destruct (addMessageToUI_lines l s) as (_ & -> & -> & _)
  end.
  done.
Qed.

Lemma load_nothing (this : state) :
  localStorage this !! "maxllm_data" = None
  \/ (exists saved, localStorage this !! "maxllm_data" = Some saved
                    /\ JSON_parse saved = SyntaxError) ->
  exists this', loadFromDatabase this = Some this'
    /\ chatHistory this' = chatHistory this
    /\ currentModel this' = currentModel this.
Proof.
  unfold loadFromDatabase.
  intros [-> | (saved & -> & ->)]; [by eexists|].
  destruct (truthy saved); by eexists.
Qed.

(** The object the constructor hands to [loadFromDatabase], when it gets
    that far: that is, unless no usable identifier is stored and the storage
    refuses the new one. *)
Lemma constructor_before_load (e : env) (key : option string)
    (storage : gmap string string) (records : list chat_record) (next : Z) :
  (falsy (storage !! "maxllm_session_id") = true ->
   setItem_throws e "maxllm_session_id" = false) ->
  exists this : state,
    constructor e key storage records next
    = match loadFromDatabase this with
      | Some this' => Constructed this'
      | None => Unrepresented
      end
    /\ localStorage this !! "maxllm_data" = storage !! "maxllm_data"
    /\ chatHistory this = [] /\ currentModel this = default_model
    /\ chatMessages this = [] /\ isLoading this = false /\ db this = false
    /\ chat_records this = records /\ key_generator this = next
    /\ historyContent this = None /\ messageInput this = ""
    /\ sessionId this
       = (if falsy (storage !! "maxllm_session_id")
          then "session-" +:+ pretty (Date_now e)
          else default "" (storage !! "maxllm_session_id"))
    /\ localStorage this !! "maxllm_session_id" = Some (sessionId this).
Proof.
  intros Hwrite. unfold constructor. cbv zeta.
  destruct (storage !! "maxllm_session_id") as [id|] eqn:Hid;
    [destruct (truthy id) eqn:Ht|]; simpl in Hwrite; rewrite ?Ht in Hwrite;
    try specialize (Hwrite eq_refl);
    unfold startNewSession; simpl;
    rewrite ?localStorage_setItem_accepted by done; simpl;
    (eexists; split; [reflexivity|]); simpl; rewrite ?Hid, ?Ht; simpl;
    rewrite ?lookup_insert_eq, ?lookup_insert_ne by done; done.
Qed.

Lemma constructor_threw (e : env) (key : option string)
    (storage : gmap string string) (records : list chat_record) (next : Z) :
  falsy (storage !! "maxllm_session_id") = true ->
  setItem_throws e "maxllm_session_id" = true ->
  constructor e key storage records next = ConstructorThrew "QuotaExceededError".
Proof.
  intros Hid Hwrite. unfold constructor. cbv zeta.
  destruct (storage !! "maxllm_session_id") as [id|];
    [destruct (truthy id) eqn:Ht; [simpl in Hid; by rewrite Ht in Hid|]|];
    unfold startNewSession; simpl;
    by rewrite localStorage_setItem_refused.
Qed.

(** Where a constructed object comes from. *)
Lemma constructor_Constructed (e : env) (key : option string)
    (storage : gmap string string) (records : list chat_record) (next : Z)
    (this' : state) :
  constructor e key storage records next = Constructed this' ->
  exists this : state,
    loadFromDatabase this = Some this'
    /\ localStorage this !! "maxllm_data" = storage !! "maxllm_data"
    /\ chatHistory this = [] /\ currentModel this = default_model
    /\ chatMessages this = [] /\ isLoading this = false /\ db this = false
    /\ chat_records this = records /\ key_generator this = next
    /\ historyContent this = None /\ messageInput this = ""
    /\ sessionId this
       = (if falsy (storage !! "maxllm_session_id")
          then "session-" +:+ pretty (Date_now e)
          else default "" (storage !! "maxllm_session_id"))
    /\ localStorage this !! "maxllm_session_id" = Some (sessionId this).
Proof.
  intros Hc.
  destruct (falsy (storage !! "maxllm_session_id")) eqn:Hid;
    [destruct (setItem_throws e "maxllm_session_id") eqn:Hwrite|].
  - by rewrite constructor_threw in Hc.
  - destruct (constructor_before_load e key storage records next) as (this & Heq & Hrest);
      [done|].
    rewrite Hc in Heq. rewrite Hid in Hrest. exists this. split; [|done].
    by destruct (loadFromDatabase this) as [x|]; [injection Heq as ->|].
  - destruct (constructor_before_load e key storage records next) as (this & Heq & Hrest);
      [by rewrite Hid|].
    rewrite Hc in Heq. rewrite Hid in Hrest. exists this. split; [|done].
    by destruct (loadFromDatabase this) as [x|]; [injection Heq as ->|].
Qed.

(** The next start of the page on a storage whose snapshot slot holds the
    text of [d]. *)
Lemma reload_saved (e' : env) (d : snapshot) (key : option string)
    (storage : gmap string string) (records : list chat_record) (next : Z) :
  JSON_faithful ->
  (falsy (storage !! "maxllm_session_id") = true ->
   setItem_throws e' "maxllm_session_id" = false) ->
  storage !! "maxllm_data" = Some (JSON_stringify d) ->
  exists this, constructor e' key storage records next = Constructed this
    /\ chatHistory this = snap_chatHistory d
    /\ currentModel this
       = (if truthy (snap_currentModel d) then snap_currentModel d else default_model)
    /\ chatMessages this = line_of <$> snap_chatHistory d
    /\ sessionId this
       = (if falsy (storage !! "maxllm_session_id")
          then "session-" +:+ pretty (Date_now e')
          else default "" (storage !! "maxllm_session_id")).
Proof.
  intros Hfaithful Hwrite Hslot.
  destruct (constructor_before_load e' key storage records next Hwrite)
    as (this & -> & Hdata & Hh & _ & Hl & _ & _ & _ & _ & _ & _ & Hsid & _).
  rewrite Hslot in Hdata.
  destruct (load_saved d this Hfaithful Hdata) as (this' & Hload & Hhist & Hmodel).
  rewrite Hload. exists this'. split_and!; [done..| |].
  - rewrite <- Hhist. by apply (loadFromDatabase_lines this).
  - by destruct (loadFromDatabase_frame this this' Hload) as (_ & _ & -> & _).
Qed.
End SnapshotFacts.

(** C6, as amended: with a faithful [JSON] and a storage that accepts the
    write, a snapshot written by [saveToDatabase] and read back at the next
    start of the page restores the saved history, and restores the saved model
    identifier when it is not the empty string (an empty identifier comes back
    as the default one); a storage that refuses the write makes
    [saveToDatabase] throw and stays as it was.  When the slot is absent or
    its text does not parse, the load completes and the freshly constructed
    object keeps the empty history and the default model identifier.  The
    next start is one that gets as far as the load: a session identifier is
    stored, or the storage accepts the new one. *)
Theorem snapshot_save_load `{JSON} (e e' : env) (st : state) (key : option string)
    (records : list chat_record) (next : Z) :
  JSON_faithful ->
  setItem_throws e' "maxllm_session_id" = false ->
  (setItem_throws e "maxllm_data" = false ->
   exists this,
     constructor e' key (localStorage (saveToDatabase e st)) records next
     = Constructed this
     /\ thrown (saveToDatabase e st) = None
     /\ chatHistory this = chatHistory st
     /\ (currentModel st ≠ "" -> currentModel this = currentModel st)
     /\ (currentModel st = "" -> currentModel this = default_model))
  /\ (setItem_throws e "maxllm_data" = true ->
      thrown (saveToDatabase e st) = Some "QuotaExceededError"
      /\ after (saveToDatabase e st) = st)
  /\ (forall storage : gmap string string,
        storage !! "maxllm_data" = None
        \/ (exists saved, storage !! "maxllm_data" = Some saved
                          /\ JSON_parse saved = SyntaxError) ->
        exists this,
          constructor e' key storage records next = Constructed this
          /\ chatHistory this = []
          /\ currentModel this = default_model).
Proof.
  intros Hfaithful Hsession. split_and!.
  - intros Hdata. rewrite (saveToDatabase_accepted e st Hdata).
    destruct (reload_saved e'
                (Snapshot (chatHistory st) (currentModel st) (Date_toISOString e)) key
                (<["maxllm_data" :=
                     JSON_stringify
                       (Snapshot (chatHistory st) (currentModel st) (Date_toISOString e))]>
                   (localStorage st)) records next Hfaithful)
      as (this & Hc & Hh & Hm & _); [done|by rewrite lookup_insert_eq|].
    exists this. simpl in *. split_and!; [done..| |].
    + intros Hne. by rewrite Hm, truthy_neq.
    + intros Hempty. by rewrite Hm, Hempty.
  - intros Hdata. by rewrite (saveToDatabase_refused e st Hdata).
  - intros storage Hslot.
    destruct (constructor_before_load e' key storage records next)
      as (this & -> & Hthis & Hh & Hm & _); [done|].
    rewrite <- Hthis in Hslot.
    destruct (load_nothing this Hslot) as (this' & -> & Hh' & Hm').
    exists this'. by rewrite Hh', Hm'.
Qed.

Lemma snapshot_save_load_witness :
  (exists this,
      constructor (H := reference_JSON) Examples.e3 (Some "sk-or-v1-test")
        (localStorage (saveToDatabase (H := reference_JSON) Examples.e2 Examples.one_turn))
        [] 1
      = Constructed this
      /\ chatHistory this = [Message "user" "hi"])
  /\ (exists this,
        constructor (H := reference_JSON) Examples.e3 (Some "sk-or-v1-test")
          (localStorage
             (saveToDatabase (H := reference_JSON) Examples.e2
                (set_currentModel "" Examples.one_turn)))
          [] 1
        = Constructed this
        /\ currentModel this = default_model)
  /\ (exists this,
        constructor (H := reference_JSON) Examples.e3 (Some "sk-or-v1-test")
          {["maxllm_data" := "{not json"]} [] 1
        = Constructed this
        /\ currentModel this = default_model)
  /\ (exists this,
        constructor (H := reference_JSON) Examples.e3 (Some "sk-or-v1-test") ∅ [] 1
        = Constructed this
        /\ currentModel this = default_model)
  /\ after (saveToDatabase (H := reference_JSON) Examples.e3_full Examples.one_turn)
     = Examples.one_turn.
Proof.
  destruct (snapshot_save_load (H := reference_JSON) Examples.e2 Examples.e3
              Examples.one_turn (Some "sk-or-v1-test") [] 1 reference_JSON_faithful
              eq_refl)
    as (Hround & _ & Hfallback).
  destruct (snapshot_save_load (H := reference_JSON) Examples.e2 Examples.e3
              (set_currentModel "" Examples.one_turn) (Some "sk-or-v1-test") [] 1
              reference_JSON_faithful eq_refl)
    as (Hempty & _ & _).
  destruct (snapshot_save_load (H := reference_JSON) Examples.e3_full Examples.e3
              Examples.one_turn (Some "sk-or-v1-test") [] 1 reference_JSON_faithful
              eq_refl)
    as (_ & Hrefused & _).
  destruct (Hround eq_refl) as (this1 & Hc1 & _ & Hh1 & _).
  destruct (Hempty eq_refl) as (this2 & Hc2 & _ & _ & _ & Hm2).
  destruct (Hfallback {["maxllm_data" := "{not json"]}) as (this3 & Hc3 & _ & Hm3).
  { right. exists "{not json". split; reflexivity. }
  destruct (Hfallback ∅) as (this4 & Hc4 & _ & Hm4).
  { left. reflexivity. }
  split_and!.
  - exists this1. split; [exact Hc1|]. rewrite Hh1. reflexivity.
  - exists this2. split; [exact Hc2|]. by apply Hm2.
  - by exists this3.
  - by exists this4.
  - by apply Hrefused.
Defined.

(** C6, as first stated, fails for the empty model identifier: it is
    saved, and the next start of the page comes back with the default one. *)
Lemma snapshot_empty_model_not_restored :
  currentModel (modelSelect_onchange (H := reference_JSON) Examples.e2 "" Examples.fresh)
  = ""
  /\ exists this,
       constructor (H := reference_JSON) Examples.e3 (Some "sk-or-v1-test")
         (localStorage
            (modelSelect_onchange (H := reference_JSON) Examples.e2 "" Examples.fresh))
         [] 1
       = Constructed this
       /\ currentModel this = "deepseek/deepseek-r1:free"
       /\ currentModel this
          ≠ currentModel
              (modelSelect_onchange (H := reference_JSON) Examples.e2 "" Examples.fresh).
Proof.
  split; [by vm_compute|].
  eexists. split; [by vm_compute|]. split; by vm_compute.
Qed.

(** ** Reconstruction *)

Lemma by_timestamp_key (a b : chat_record) :
  True -> True -> (by_timestamp a b <= 0 <-> rec_timestamp a <= rec_timestamp b).
Proof. unfold by_timestamp. lia. Qed.

Lemma latest_first_key (a b : SessionView) :
  True -> True -> (latest_first a b <= 0 <-> - head_timestamp a <= - head_timestamp b).
Proof. unfold latest_first. lia. Qed.

Lemma addMessage_persists (e : env) (r c : string) (st : state) :
  db st = true -> idb_write_fails e = false -> r ≠ "error" ->
  chat_records (addMessage e r c st)
  = chat_records st
    ++ [ChatRecord (key_generator st) (sessionId st) (Date_now e) r c (currentModel st)]
  /\ key_generator (addMessage e r c st) = key_generator st + 1.
Proof.
  intros Hdb He Hr. unfold addMessage. cbv zeta.
  rewrite bool_decide_true by done.
  unfold addRecordToDb, IDBObjectStore_add. simpl. by rewrite Hdb, He.
Qed.

Lemma list_filter_iff_elem {A} (P1 P2 : A -> Prop)
    `{forall x, Decision (P1 x)} `{forall x, Decision (P2 x)} (l : list A) :
  (forall x, x ∈ l -> P1 x <-> P2 x) -> filter P1 l = filter P2 l.
Proof.
  induction l as [|x l IH]; intros HP; [done|].
  rewrite !filter_cons, IH by (intros y Hy; apply HP; by right).
  specialize (HP x ltac:(by left)).
  repeat case_decide; tauto || done.
Qed.

Lemma StronglySorted_weaken {A} (R1 R2 : A -> A -> Prop) (l : list A) :
  (forall x y, R1 x y -> R2 x y) -> StronglySorted R1 l -> StronglySorted R2 l.
Proof.
  intros HR. induction 1 as [|x l Hs IH Hx]; constructor; [done|].
  eapply Forall_impl; [exact Hx|]. auto.
Qed.

Lemma session_views_ids (scan : list chat_record) :
  sv_sessionId <$> session_views scan = first_seen (rec_sessionId <$> scan).
Proof.
  unfold session_views. rewrite <- list_fmap_compose.
  rewrite <- group_by_session_keys. done.
Qed.

Lemma session_views_elem (scan : list chat_record) (v : SessionView) :
  v ∈ session_views scan ->
  sv_records v
  = Array_sort by_timestamp (filter (fun r => rec_sessionId r = sv_sessionId v) scan)
  /\ sv_records v ≠ [].
Proof.
  unfold session_views. intros Hv.
  apply list_elem_of_fmap in Hv as (g & -> & Hg). simpl.
  pose proof (group_by_session_nonempty scan) as Hne.
  rewrite Forall_forall in Hne. specialize (Hne _ Hg).
  split; [|by apply Array_sort_nonempty].
  unfold group_by_session in Hg.
  apply list_elem_of_fmap in Hg as (id & -> & _). done.
Qed.

Lemma StronglySorted_filter {A} (R : A -> A -> Prop) (P : A -> Prop)
    `{forall x, Decision (P x)} (l : list A) :
  StronglySorted R l -> StronglySorted R (filter P l).
Proof.
  induction 1 as [|x l Hs IH Hx]; [constructor|].
  rewrite filter_cons. case_decide; [|done].
  constructor; [done|].
  rewrite Forall_forall in Hx. apply Forall_forall.
  intros y Hy. apply list_elem_of_filter in Hy as [_ Hy]. by apply Hx.
Qed.

Lemma sorted_ties_by_key (l : list chat_record) :
  StronglySorted (fun a b => rec_timestamp a <= rec_timestamp b) l ->
  (forall t, ascending_keys (filter (fun r => rec_timestamp r = t) l)) ->
  StronglySorted timestamp_then_key l.
Proof.
  induction 1 as [|x l Hs IH Hx]; intros Hties; [constructor|].
  constructor.
  - apply IH. intros t. specialize (Hties t).
    rewrite filter_cons in Hties. case_decide; [|done].
    by apply StronglySorted_inv in Hties as [? _].
  - specialize (Hties (rec_timestamp x)).
    rewrite filter_cons_True in Hties by done.
    apply StronglySorted_inv in Hties as [_ Hties].
    rewrite Forall_forall in Hx, Hties. apply Forall_forall. intros y Hy.
    unfold timestamp_then_key.
    destruct (decide (rec_timestamp y = rec_timestamp x)) as [Heq|Hne].
    + right. split; [done|]. apply Hties. by apply list_elem_of_filter.
    + left. specialize (Hx y Hy). simpl in Hx. lia.
Qed.

Lemma addMessage_store_well_formed (e : env) (r c : string) (st : state) :
  store_well_formed st -> store_well_formed (addMessage e r c st).
Proof.
  intros [Hasc Hbelow]. unfold addMessage. cbv zeta.
  case_bool_decide; [|done].
  unfold addRecordToDb, IDBObjectStore_add. simpl.
  destruct (db st), (idb_write_fails e); simpl; try done.
  split; simpl.
  - apply StronglySorted_app_2; [|done|by repeat constructor].
    intros a b Ha Hb. apply list_elem_of_singleton in Hb as ->. simpl.
    rewrite Forall_forall in Hbelow. by apply Hbelow.
  - apply Forall_app. split.
    + eapply Forall_impl; [exact Hbelow|]. simpl. intros; lia.
    + repeat constructor. simpl. lia.
Qed.

Lemma StronglySorted_weaken_elem {A} (R1 R2 : A -> A -> Prop) (l : list A) :
  (forall x y, x ∈ l -> y ∈ l -> R1 x y -> R2 x y) ->
  StronglySorted R1 l -> StronglySorted R2 l.
Proof.
  intros HR Hs. induction Hs as [|x l Hs IH Hx]; constructor.
  - apply IH. intros a b Ha Hb. apply HR; by right.
  - rewrite Forall_forall in Hx. apply Forall_forall. intros y Hy.
    apply HR; [by left|by right|by apply Hx].
Qed.

(** The least element of a non-empty list of numbers. *)
Lemma foldr_min_least (t : Z) (ts : list Z) :
  foldr Z.min t ts ∈ t :: ts /\ Forall (fun x => foldr Z.min t ts <= x) (t :: ts).
Proof.
  induction ts as [|u ts [IHin IHle]]; simpl.
  - split; [by left|]. repeat constructor. lia.
  - apply Forall_cons in IHle as [IHt IHts]. split.
    + destruct (Z.min_spec u (foldr Z.min t ts)) as [[_ ->]|[_ ->]].
      * right. by left.
      * apply elem_of_cons in IHin as [->|Hin]; [by left|]. right. by right.
    + repeat apply Forall_cons_2; [lia|lia|].
      eapply Forall_impl; [exact IHts|]. simpl. intros; lia.
Qed.

Lemma sorted_head_least (h : Z) (tl : list Z) (t : Z) (ts : list Z) :
  StronglySorted Z.le (h :: tl) -> h :: tl ≡ₚ t :: ts -> h = foldr Z.min t ts.
Proof.
  intros Hs Hp. apply StronglySorted_inv in Hs as [_ Hle].
  destruct (foldr_min_least t ts) as [Hin Hmin].
  rewrite Forall_forall in Hle, Hmin.
  assert (foldr Z.min t ts <= h) by (apply Hmin; rewrite <- Hp; by left).
  rewrite <- Hp in Hin. apply elem_of_cons in Hin as [Heq|Hin]; [done|].
  specialize (Hle _ Hin). lia.
Qed.

Lemma sorted_timestamps (l : list chat_record) :
  StronglySorted (fun a b => rec_timestamp a <= rec_timestamp b) l ->
  StronglySorted Z.le (rec_timestamp <$> l).
Proof.
  induction 1 as [|x l Hs IH Hx]; simpl; constructor; [done|].
  by rewrite Forall_fmap.
Qed.

(** The first record of a view carries the least timestamp of its session
    in the scan. *)
Lemma head_timestamp_session_start (scan : list chat_record) (v : SessionView) :
  v ∈ session_views scan -> head_timestamp v = session_start scan (sv_sessionId v).
Proof.
  intros Hv. apply session_views_elem in Hv as [Hrec Hne].
  unfold head_timestamp, session_start.
  set (g := filter (fun r => rec_sessionId r = sv_sessionId v) scan) in *.
  assert (StronglySorted Z.le (rec_timestamp <$> Array_sort by_timestamp g)) as Hs.
  { apply sorted_timestamps.
    apply (Array_sort_sorted by_timestamp rec_timestamp (fun _ => True)
             by_timestamp_key).
    by apply Forall_true. }
  assert (rec_timestamp <$> Array_sort by_timestamp g ≡ₚ rec_timestamp <$> g) as Hp
    by (by rewrite Array_sort_perm).
  rewrite Hrec in Hne |- *.
  destruct (Array_sort by_timestamp g) as [|h tl]; [done|].
  destruct g as [|r rs].
  - simpl in Hp. by apply Permutation_nil_r in Hp.
  - simpl in *. by apply sorted_head_least with (rec_timestamp <$> tl).
Qed.

(** C5: on a database handle, a scan that runs to the end resolves
    [readAllSessions] with the spec's reconstruction of the scanned
    records, which [showHistory] displays.  The views carry the session
    identifiers of the scan, one view each; the records of a view are those
    of its session, ordered by timestamp and, among equal timestamps, in scan
    order, which for a store in ascending key order is the order of the
    primary keys; the first record of a view carries the least timestamp the
    store holds for that session, the views are ordered by it, latest
    first, and views that tie there keep their first-seen order.
    Appending (user, hi) and then (assistant, hello) to an empty store, the
    clock not running backwards in between, gives one view holding these two
    records in this order under the one session identifier. *)
Theorem readAllSessions_reconstructs (e : env) (st : state) :
  db st = true -> idb_scan_throws e = false ->
  readAllSessions e st (cursor_events (chat_records st) None)
  = Resolved (reconstruct (chat_records st))
  /\ showHistory e None st
     = Normal (set_history_panel (Some (reconstruct (chat_records st))) true st)
  /\ sv_sessionId <$> reconstruct (chat_records st)
     ≡ₚ first_seen (rec_sessionId <$> chat_records st)
  /\ (forall v, v ∈ reconstruct (chat_records st) ->
        sv_records v ≠ []
        /\ StronglySorted (fun a b => rec_timestamp a <= rec_timestamp b) (sv_records v)
        /\ forall t, filter (fun r => rec_timestamp r = t) (sv_records v)
                     = filter (fun r => rec_timestamp r = t)
                         (filter (fun r => rec_sessionId r = sv_sessionId v)
                            (chat_records st)))
  /\ (ascending_keys (chat_records st) ->
      forall v, v ∈ reconstruct (chat_records st) ->
                StronglySorted timestamp_then_key (sv_records v))
  /\ (forall v, v ∈ reconstruct (chat_records st) ->
        head_timestamp v = session_start (chat_records st) (sv_sessionId v))
  /\ StronglySorted
       (fun a b => session_start (chat_records st) (sv_sessionId b)
                   <= session_start (chat_records st) (sv_sessionId a))
       (reconstruct (chat_records st))
  /\ sv_sessionId <$> session_views (chat_records st)
     = first_seen (rec_sessionId <$> chat_records st)
  /\ (forall t,
        filter (fun v => session_start (chat_records st) (sv_sessionId v) = t)
          (reconstruct (chat_records st))
        = filter (fun v => session_start (chat_records st) (sv_sessionId v) = t)
            (session_views (chat_records st)))
  /\ (forall e1 e2 : env,
        chat_records st = [] ->
        idb_write_fails e1 = false -> idb_write_fails e2 = false ->
        Date_now e1 <= Date_now e2 ->
        readAllSessions e
          (addMessage e2 "assistant" "hello" (addMessage e1 "user" "hi" st))
          (cursor_events
             (chat_records
                (addMessage e2 "assistant" "hello" (addMessage e1 "user" "hi" st)))
             None)
        = Resolved
            [ {| sv_sessionId := sessionId st;
                 sv_records :=
                   [ ChatRecord (key_generator st) (sessionId st) (Date_now e1)
                       "user" "hi" (currentModel st);
                     ChatRecord (key_generator st + 1) (sessionId st) (Date_now e2)
                       "assistant" "hello" (currentModel st) ] |} ]).
Proof.
  intros Hdb He.
  pose proof (readAllSessions_full e st Hdb He) as Hfull.
  assert (forall v, v ∈ reconstruct (chat_records st) ->
            head_timestamp v = session_start (chat_records st) (sv_sessionId v))
    as Hstart.
  { intros v Hv. unfold reconstruct in Hv. rewrite Array_sort_perm in Hv.
    by apply head_timestamp_session_start. }
  split_and!.
  - done.
  - unfold showHistory. by rewrite Hdb, Hfull.
  - unfold reconstruct. by rewrite Array_sort_perm, session_views_ids.
  - intros v Hv. unfold reconstruct in Hv. rewrite Array_sort_perm in Hv.
    apply session_views_elem in Hv as [Hrec Hnil].
    split; [done|]. rewrite Hrec. split.
    + apply (Array_sort_sorted by_timestamp rec_timestamp (fun _ => True)
               by_timestamp_key).
      by apply Forall_true.
    + intros t.
      apply (Array_sort_stable by_timestamp rec_timestamp (fun _ => True)
               by_timestamp_key).
      by apply Forall_true.
  - intros Hasc v Hv. unfold reconstruct in Hv. rewrite Array_sort_perm in Hv.
    apply session_views_elem in Hv as [Hrec _]. rewrite Hrec.
    apply sorted_ties_by_key.
    + apply (Array_sort_sorted by_timestamp rec_timestamp (fun _ => True)
               by_timestamp_key).
      by apply Forall_true.
    + intros t.
      rewrite (Array_sort_stable by_timestamp rec_timestamp (fun _ => True)
                 by_timestamp_key) by (by apply Forall_true).
      by do 2 apply StronglySorted_filter.
  - exact Hstart.
  - eapply StronglySorted_weaken_elem;
      [|apply (Array_sort_sorted latest_first (fun v => - head_timestamp v)
                 (fun _ => True) latest_first_key); by apply Forall_true].
    fold (reconstruct (chat_records st)). simpl. intros a b Ha Hb Hab.
    rewrite <- !Hstart by done. lia.
  - apply session_views_ids.
  - intros t.
    rewrite (list_filter_iff_elem
               (fun v => session_start (chat_records st) (sv_sessionId v) = t)
               (fun v => - head_timestamp v = - t) (reconstruct _)).
    2:{ intros v Hv. rewrite <- Hstart by done. lia. }
    rewrite (list_filter_iff_elem
               (fun v => session_start (chat_records st) (sv_sessionId v) = t)
               (fun v => - head_timestamp v = - t) (session_views _)).
    2:{ intros v Hv. rewrite <- head_timestamp_session_start by done. lia. }
    apply (Array_sort_stable latest_first (fun v => - head_timestamp v)
             (fun _ => True) latest_first_key).
    by apply Forall_true.
  - intros e1 e2 Hempty He1 He2 Hclock.
    set (st1 := addMessage e1 "user" "hi" st).
    destruct (addMessage_persists e1 "user" "hi" st Hdb He1 ltac:(done))
      as [Hrec1 Hkey1].
    destruct (addMessage_frame e1 "user" "hi" st) as (Hdb1 & _ & Hsid1 & Hmodel1 & _).
    fold st1 in Hrec1, Hkey1, Hdb1, Hsid1, Hmodel1. rewrite Hdb in Hdb1.
    destruct (addMessage_persists e2 "assistant" "hello" st1 Hdb1 He2 ltac:(done))
      as [Hrec2 _].
    destruct (addMessage_frame e2 "assistant" "hello" st1) as (Hdb2 & _).
    rewrite Hdb1 in Hdb2.
    rewrite (readAllSessions_full e _ Hdb2 He), Hrec2, Hrec1, Hkey1, Hsid1, Hmodel1,
      Hempty.
    f_equal. unfold reconstruct, session_views, group_by_session. simpl.
    rewrite (filter_cons_False _ (sessionId st)), filter_nil by auto.
    simpl. rewrite !filter_cons_True, filter_nil by done.
    unfold by_timestamp. simpl.
    by replace (Date_now e1 - Date_now e2 <=? 0) with true
      by (symmetry; apply Z.leb_le; lia).
Qed.

Lemma readAllSessions_reconstructs_witness :
  readAllSessions Examples.e3 Examples.two_turns
    (cursor_events (chat_records Examples.two_turns) None)
  = Resolved
      [ {| sv_sessionId := "session-1700000000000";
           sv_records :=
             [ ChatRecord 1 "session-1700000000000" 1700000005000
                 "user" "hi" "deepseek/deepseek-r1:free";
               ChatRecord 2 "session-1700000000000" 1700000009000
                 "assistant" "hello" "deepseek/deepseek-r1:free" ] |} ]
  /\ (forall v, v ∈ reconstruct (chat_records Examples.two_turns) ->
                StronglySorted timestamp_then_key (sv_records v))
  /\ chat_records Examples.two_sessions
     = [ ChatRecord 1 "session-1700000000000" 1700000005000
           "user" "hi" "deepseek/deepseek-r1:free";
         ChatRecord 2 "session-1700000009000" 1700000012000
           "user" "again" "deepseek/deepseek-r1:free" ]
  /\ readAllSessions Examples.e4 Examples.two_sessions
       (cursor_events (chat_records Examples.two_sessions) None)
     = Resolved
         [ {| sv_sessionId := "session-1700000009000";
              sv_records :=
                [ ChatRecord 2 "session-1700000009000" 1700000012000
                    "user" "again" "deepseek/deepseek-r1:free" ] |};
           {| sv_sessionId := "session-1700000000000";
              sv_records :=
                [ ChatRecord 1 "session-1700000000000" 1700000005000
                    "user" "hi" "deepseek/deepseek-r1:free" ] |} ].
Proof.
  destruct (readAllSessions_reconstructs Examples.e3 Examples.fresh eq_refl eq_refl)
    as (_ & _ & _ & _ & _ & _ & _ & _ & _ & Hscenario).
  destruct (readAllSessions_reconstructs Examples.e3 Examples.two_turns eq_refl eq_refl)
    as (_ & _ & _ & _ & Hties & _).
  destruct (readAllSessions_reconstructs Examples.e4 Examples.two_sessions
              eq_refl eq_refl)
    as (Hfull & _).
  split_and!.
  - apply (Hscenario Examples.e2 Examples.e3); [reflexivity..|].
    vm_compute. discriminate.
  - apply Hties. repeat constructor.
  - reflexivity.
  - rewrite Hfull. reflexivity.
Defined.

(** ** Escaping and export *)

Lemma list_ascii_of_string_app (s t : string) :
  list_ascii_of_string (s +:+ t) = list_ascii_of_string s ++ list_ascii_of_string t.
Proof. induction s as [|a s IH]; simpl; [done|]. by rewrite IH. Qed.

Lemma unescapeHtml_unit (a : ascii) (t : string) :
  unescapeHtml (escape_code_unit a +:+ t) = String a (unescapeHtml t).
Proof. destruct a as [[] [] [] [] [] [] [] []]; reflexivity. Qed.

Lemma escape_code_unit_no_bracket (a : ascii) :
  Forall (fun c => c ≠ "<"%char /\ c ≠ ">"%char)
    (list_ascii_of_string (escape_code_unit a)).
Proof.
  destruct a as [[] [] [] [] [] [] [] []]; vm_compute;
    repeat constructor; discriminate.
Qed.

Lemma unescapeHtml_escapeHtml (text : string) :
  unescapeHtml (escapeHtml text) = text.
Proof.
  induction text as [|a text IH]; simpl; [done|].
  by rewrite unescapeHtml_unit, IH.
Qed.

(** X1: the markup [escapeHtml] returns holds no angle bracket, so text
    put into the history panel cannot open or close a tag; reading the markup
    back gives the text again, and distinct texts have distinct markup. *)
Theorem escapeHtml_no_markup (text : string) :
  Forall (fun c => c ≠ "<"%char /\ c ≠ ">"%char)
    (list_ascii_of_string (escapeHtml text))
  /\ unescapeHtml (escapeHtml text) = text
  /\ (forall text', escapeHtml text' = escapeHtml text -> text' = text).
Proof.
  split_and!.
  - induction text as [|a text IH]; simpl; [constructor|].
    rewrite list_ascii_of_string_app. apply Forall_app. split; [|done].
    apply escape_code_unit_no_bracket.
  - apply unescapeHtml_escapeHtml.
  - intros text' Heq.
    by rewrite <- (unescapeHtml_escapeHtml text'), Heq, unescapeHtml_escapeHtml.
Qed.

Lemma escapeHtml_no_markup_witness :
  escapeHtml "<b>R&D</b>" = "&lt;b&gt;R&amp;D&lt;/b&gt;"
  /\ forall text', escapeHtml text' = escapeHtml "<b>R&D</b>" -> text' = "<b>R&D</b>".
Proof.
  destruct (escapeHtml_no_markup "<b>R&D</b>") as (_ & _ & Hinj).
  split; [reflexivity|exact Hinj].
Defined.

Lemma split_first_app (sep : ascii) (s t : string) :
  Forall (fun c => c ≠ sep) (list_ascii_of_string s) ->
  split_first sep (s +:+ String sep t) = s.
Proof.
  induction s as [|a s IH]; simpl; intros Hs.
  - by rewrite Ascii.eqb_refl.
  - apply Forall_cons in Hs as [Ha Hs].
    destruct (Ascii.eqb_spec a sep) as [->|_]; [done|]. by rewrite IH.
Qed.

(** X2: [exportChat] exports the live history, which holds the turns
    appended with a role other than [error] and no error line, together with
    the current model; for a time stamp of the form date, [T], time it names
    the download [maxllm-chat-] date [.json]. *)
Theorem exportChat_contents (e : env) (st : state)
    (calls : list (env * (string * string))) (date time : string) :
  Date_toISOString e = date +:+ String "T" time ->
  Forall (fun c => c ≠ "T"%char) (list_ascii_of_string date) ->
  export_download (exportChat e (appendTurns calls st))
  = "maxllm-chat-" +:+ date +:+ ".json"
  /\ export_messages (exportChat e (appendTurns calls st))
     = chatHistory st ++ turns_of calls
  /\ export_timestamp (exportChat e (appendTurns calls st)) = Date_toISOString e.
Proof.
  intros Hiso Hdate. unfold exportChat. simpl.
  rewrite Hiso, split_first_app by done.
  by rewrite appendTurns_chatHistory.
Qed.

Lemma exportChat_contents_witness :
  export_download
    (exportChat Examples.e3
       (appendTurns [(Examples.e2, ("user", "hi")); (Examples.e2, ("error", "Error: x"))]
          Examples.fresh))
  = "maxllm-chat-2023-11-14.json"
  /\ export_messages
       (exportChat Examples.e3
          (appendTurns [(Examples.e2, ("user", "hi")); (Examples.e2, ("error", "Error: x"))]
             Examples.fresh))
     = [Message "user" "hi"].
Proof.
  destruct (exportChat_contents Examples.e3 Examples.fresh
              [(Examples.e2, ("user", "hi")); (Examples.e2, ("error", "Error: x"))]
              "2023-11-14" "22:13:29.000Z" eq_refl)
    as (Hname & Hmsgs & _).
  { vm_compute. repeat constructor; discriminate. }
  split.
  - rewrite Hname. reflexivity.
  - rewrite Hmsgs. reflexivity.
Defined.

Lemma or_else_truthy (x : option string) (fallback : string) :
  truthy fallback = true -> truthy (or_else x fallback) = true.
Proof. intros Hf. destruct x as [s|]; simpl; [|done]. by destruct (truthy s) eqn:Hs. Qed.

(** ** What a send does *)

Lemma truthy_false (s : string) : truthy s = false <-> s = "".
Proof. by destruct s. Qed.

Lemma trim_start_all_white_space (s : string) :
  all_white_space (trim_start s) = all_white_space s.
Proof.
  induction s as [|a s IH]; simpl; [done|].
  destruct (is_white_space a) eqn:Ha; simpl; [done|]. by rewrite Ha.
Qed.

Lemma trim_end_empty (s : string) : trim_end s = "" <-> all_white_space s = true.
Proof.
  induction s as [|a s IH]; simpl; [done|].
  destruct (is_white_space a); simpl; [|done].
  destruct (truthy (trim_end s)) eqn:Ht; simpl.
  - split; [done|]. intros Hs. apply IH in Hs. by rewrite Hs in Ht.
  - apply truthy_false in Ht. split; [|done]. intros _. by apply IH.
Qed.

Lemma trim_empty (s : string) : trim s = "" <-> all_white_space s = true.
Proof. unfold trim. by rewrite trim_end_empty, trim_start_all_white_space. Qed.

Lemma estimateTokens_budget (ms : list message) :
  estimateTokens (Some <$> ms) <= 1000 <-> total_chars ms <= 4000.
Proof.
  unfold estimateTokens. rewrite reduce_well_formed.
  pose proof (Math_ceil_div_4_bounds (0 + total_chars ms)). lia.
Qed.

Lemma buildMessages_length (h : list message) (c : string) :
  (length (buildMessages h c) <= 12)%nat.
Proof.
  unfold buildMessages. change (-10) with (- Z.of_nat 10).
  rewrite Array_slice_neg_last_n.
  rewrite length_cons, length_app, last_n_length.
  change (length [Message "user" c]) with 1%nat. lia.
Qed.

(** What [sendMessage] did when it issued a request. *)
Lemma sendMessage_issued (e : env) (st : state) (req : request) :
  (sendMessage e st).2 = Some req ->
  trim (messageInput st) ≠ "" /\ isLoading st = false /\ falsy (apiKey st) = false
  /\ estimateTokens
       (Some <$> buildMessages (chatHistory st) (trim (messageInput st))) <= 1000
  /\ sendMessage e st
     = (setLoading true
          (set_messageInput "" (addMessage e "user" (trim (messageInput st)) st)),
        Some (Request (currentModel st)
                (buildMessages (chatHistory st) (trim (messageInput st))))).
Proof.
  unfold sendMessage. cbv zeta.
  destruct (truthy (trim (messageInput st))) eqn:Ht; [|done].
  destruct (isLoading st) eqn:Hl; [done|].
  destruct (falsy (apiKey st)) eqn:Hk; [done|].
  simpl negb. simpl orb. cbv iota.
  destruct (Z.ltb_spec 1000
    (estimateTokens (Some <$> buildMessages (chatHistory st) (trim (messageInput st)))))
    as [Hgt|Hle]; [done|].
  intros _. split_and!; try done.
  - intros Hempty. by rewrite Hempty in Ht.
  - destruct (addMessage_frame e "user" (trim (messageInput st)) st)
      as (_ & _ & _ & Hmodel & _).
    f_equal. simpl. by rewrite Hmodel.
Qed.

(** X4: with a key configured and no request in flight, an input made of
    white space only is ignored, and every other input gets a visible answer:
    [sendMessage] adds a line to the page, the user's turn or the notice
    that the chat must be cleared. *)
Theorem sendMessage_blank_input (e : env) (st : state) :
  isLoading st = false -> falsy (apiKey st) = false ->
  (all_white_space (messageInput st) = true -> sendMessage e st = (st, None))
  /\ (all_white_space (messageInput st) = false ->
      chatMessages (sendMessage e st).1
      = chatMessages st ++ [("message user", trim (messageInput st))]
      \/ chatMessages (sendMessage e st).1
         = chatMessages st ++ [("message error", "CLEAR CHAT")]).
Proof.
  intros Hl Hk. unfold sendMessage. cbv zeta. rewrite Hl, Hk. split.
  - intros Hws. apply trim_empty in Hws. by rewrite Hws.
  - intros Hws.
    assert (trim (messageInput st) ≠ "") as Hne.
    { intros Hempty. apply trim_empty in Hempty. congruence. }
    rewrite (truthy_neq _ Hne). simpl negb. simpl orb. cbv iota.
    destruct (1000 <? _); [by right|]. left. simpl.
    unfold addMessage. cbv zeta. rewrite bool_decide_true by done.
    by frame_addRecordToDb.
Qed.

Lemma sendMessage_blank_input_witness :
  sendMessage Examples.e2 (set_messageInput "  " Examples.fresh)
  = (set_messageInput "  " Examples.fresh, None)
  /\ (chatMessages (sendMessage Examples.e2 Examples.typed_hello).1
      = chatMessages Examples.typed_hello ++ [("message user", "hello")]
      \/ chatMessages (sendMessage Examples.e2 Examples.typed_hello).1
         = chatMessages Examples.typed_hello ++ [("message error", "CLEAR CHAT")]).
Proof.
  destruct (sendMessage_blank_input Examples.e2 (set_messageInput "  " Examples.fresh)
              eq_refl eq_refl) as [Hblank _].
  destruct (sendMessage_blank_input Examples.e2 Examples.typed_hello eq_refl eq_refl)
    as [_ Hshown].
  split; [by apply Hblank|by apply Hshown].
Defined.

(** X5: a request is issued only from an idle object with a key; it names
    the current model and carries the system instruction first and the trimmed
    input as the last, user, message, at most 12 messages whose contents total
    at most 4000 characters; the input box is emptied and the object is
    marked as loading. *)
Theorem sendMessage_request (e : env) (st : state) (req : request) :
  (sendMessage e st).2 = Some req ->
  isLoading st = false /\ apiKey st ≠ None
  /\ req_model req = currentModel st
  /\ req_messages req = buildMessages (chatHistory st) (trim (messageInput st))
  /\ head (req_messages req) = Some system_message
  /\ last (req_messages req) = Some (Message "user" (trim (messageInput st)))
  /\ (length (req_messages req) <= 12)%nat
  /\ total_chars (req_messages req) <= 4000
  /\ isLoading (sendMessage e st).1 = true
  /\ messageInput (sendMessage e st).1 = "".
Proof.
  intros Hreq.
  destruct (sendMessage_issued e st req Hreq) as (Hmsg & Hl & Hk & Hest & Heq).
  rewrite Heq in Hreq. injection Hreq as <-. rewrite Heq.
  cbn [fst snd req_model req_messages].
  split_and!; try done.
  - intros Hnone. by rewrite Hnone in Hk.
  - unfold buildMessages. by rewrite app_comm_cons, last_snoc.
  - apply buildMessages_length.
  - by apply estimateTokens_budget.
Qed.

Lemma sendMessage_request_witness :
  exists req,
    (sendMessage Examples.e2 Examples.typed_hello).2 = Some req
    /\ req_messages req = [system_message; Message "user" "hello"]
    /\ total_chars (req_messages req) <= 4000.
Proof.
  eexists. split; [reflexivity|].
  destruct (sendMessage_request Examples.e2 Examples.typed_hello _ eq_refl)
    as (_ & _ & _ & _ & _ & _ & _ & Htotal & _).
  split; [reflexivity|exact Htotal].
Defined.

(** ** A whole exchange, and the next start of the page *)

Lemma addMessage_chatMessages (e : env) (r c : string) (st : state) :
  chatMessages (addMessage e r c st) = chatMessages st ++ [("message " +:+ r, c)].
Proof.
  unfold addMessage. cbv zeta. case_bool_decide; [|done].
  by frame_addRecordToDb.
Qed.

(** The object [sendMessage] leaves when it has issued a request. *)
Lemma sendMessage_issued_fields (e : env) (st : state) (req : request) :
  (sendMessage e st).2 = Some req ->
  chatHistory (sendMessage e st).1
  = chatHistory st ++ [Message "user" (trim (messageInput st))]
  /\ chatMessages (sendMessage e st).1
     = chatMessages st ++ [("message user", trim (messageInput st))]
  /\ isLoading (sendMessage e st).1 = true
  /\ currentModel (sendMessage e st).1 = currentModel st
  /\ db (sendMessage e st).1 = db st
  /\ sessionId (sendMessage e st).1 = sessionId st
  /\ localStorage (sendMessage e st).1 = localStorage st
  /\ chat_records (sendMessage e st).1
     = chat_records (addMessage e "user" (trim (messageInput st)) st)
  /\ key_generator (sendMessage e st).1
     = key_generator (addMessage e "user" (trim (messageInput st)) st).
Proof.
  intros Hreq.
  destruct (sendMessage_issued e st req Hreq) as (_ & _ & _ & _ & ->).
  destruct (addMessage_frame e "user" (trim (messageInput st)) st)
    as (Hdb & Hls & Hsid & Hmodel & _).
  cbn [fst]. simpl.
  rewrite addMessage_chatHistory, addMessage_chatMessages.
  by rewrite bool_decide_true.
Qed.

Section ResumeFacts.
Context `{JSON}.

(** A snapshot write changes nothing but the storage. *)
Lemma saveToDatabase_fields (e : env) (st : state) :
  chatHistory (saveToDatabase e st) = chatHistory st
  /\ chatMessages (saveToDatabase e st) = chatMessages st
  /\ isLoading (saveToDatabase e st) = isLoading st
  /\ currentModel (saveToDatabase e st) = currentModel st
  /\ db (saveToDatabase e st) = db st
  /\ sessionId (saveToDatabase e st) = sessionId st
  /\ chat_records (saveToDatabase e st) = chat_records st
  /\ key_generator (saveToDatabase e st) = key_generator st.
Proof. by destruct (saveToDatabase_frame e st) as [storage ->]. Qed.

(** The two ways a snapshot write can end. *)
Lemma saveToDatabase_storage (e : env) (st : state) :
  (setItem_throws e "maxllm_data" = false ->
   thrown (saveToDatabase e st) = None
   /\ localStorage (saveToDatabase e st)
      = <["maxllm_data" :=
            JSON_stringify
              (Snapshot (chatHistory st) (currentModel st) (Date_toISOString e))]>
          (localStorage st))
  /\ (setItem_throws e "maxllm_data" = true ->
      thrown (saveToDatabase e st) = Some "QuotaExceededError"
      /\ localStorage (saveToDatabase e st) = localStorage st).
Proof.
  split; intros He.
  - by rewrite saveToDatabase_accepted.
  - by rewrite saveToDatabase_refused.
Qed.

Lemma sendMessage_resume_unfold (e : env) (response : completion string) (st : state) :
  sendMessage_resume e response st
  = saveToDatabase e
      (setLoading false
         match response with
         | Normal text => addMessage e "assistant" text st
         | Throw msg => addMessage e "error" ("Error: " +:+ msg) st
         end).
Proof. reflexivity. Qed.

(** The rest of [sendMessage] after an answer. *)
Lemma sendMessage_resume_text (e : env) (text : string) (st : state) :
  chatHistory (sendMessage_resume e (Normal text) st)
  = chatHistory st ++ [Message "assistant" text]
  /\ chatMessages (sendMessage_resume e (Normal text) st)
     = chatMessages st ++ [("message assistant", text)]
  /\ isLoading (sendMessage_resume e (Normal text) st) = false
  /\ currentModel (sendMessage_resume e (Normal text) st) = currentModel st
  /\ sessionId (sendMessage_resume e (Normal text) st) = sessionId st
  /\ db (sendMessage_resume e (Normal text) st) = db st
  /\ chat_records (sendMessage_resume e (Normal text) st)
     = chat_records (addMessage e "assistant" text st)
  /\ key_generator (sendMessage_resume e (Normal text) st)
     = key_generator (addMessage e "assistant" text st)
  /\ (setItem_throws e "maxllm_data" = false ->
      thrown (sendMessage_resume e (Normal text) st) = None
      /\ localStorage (sendMessage_resume e (Normal text) st)
         = <["maxllm_data" :=
               JSON_stringify
                 (Snapshot (chatHistory st ++ [Message "assistant" text])
                    (currentModel st) (Date_toISOString e))]>
             (localStorage st))
  /\ (setItem_throws e "maxllm_data" = true ->
      thrown (sendMessage_resume e (Normal text) st) = Some "QuotaExceededError"
      /\ localStorage (sendMessage_resume e (Normal text) st) = localStorage st).
Proof.
  rewrite sendMessage_resume_unfold.
  destruct (addMessage_frame e "assistant" text st) as (Hdb & Hls & Hsid & Hmodel & _).
  pose proof (addMessage_chatHistory e "assistant" text st) as Hh.
  rewrite bool_decide_true in Hh by done.
  pose proof (addMessage_chatMessages e "assistant" text st) as Hl.
  set (s1 := addMessage e "assistant" text st) in *.
  destruct (saveToDatabase_fields e (setLoading false s1))
    as (-> & -> & -> & -> & -> & -> & -> & ->).
  destruct (saveToDatabase_storage e (setLoading false s1)) as [Hok Hfull].
  split_and!; try done.
  - intros He. destruct (Hok He) as [-> ->]. split; [done|].
    change (chatHistory (setLoading false s1)) with (chatHistory s1).
    change (currentModel (setLoading false s1)) with (currentModel s1).
    change (localStorage (setLoading false s1)) with (localStorage s1).
    by rewrite Hh, Hmodel, Hls.
  - intros He. destruct (Hfull He) as [-> ->]. split; [done|].
    change (localStorage (setLoading false s1)) with (localStorage s1).
    by rewrite Hls.
Qed.

(** The rest of [sendMessage] after a failed provider call. *)
Lemma sendMessage_resume_error (e : env) (msg : string) (st : state) :
  chatHistory (sendMessage_resume e (Throw msg) st) = chatHistory st
  /\ chatMessages (sendMessage_resume e (Throw msg) st)
     = chatMessages st ++ [("message error", "Error: " +:+ msg)]
  /\ isLoading (sendMessage_resume e (Throw msg) st) = false
  /\ currentModel (sendMessage_resume e (Throw msg) st) = currentModel st
  /\ sessionId (sendMessage_resume e (Throw msg) st) = sessionId st
  /\ chat_records (sendMessage_resume e (Throw msg) st) = chat_records st
  /\ key_generator (sendMessage_resume e (Throw msg) st) = key_generator st
  /\ (setItem_throws e "maxllm_data" = false ->
      thrown (sendMessage_resume e (Throw msg) st) = None
      /\ localStorage (sendMessage_resume e (Throw msg) st)
         = <["maxllm_data" :=
               JSON_stringify
                 (Snapshot (chatHistory st) (currentModel st) (Date_toISOString e))]>
             (localStorage st))
  /\ (setItem_throws e "maxllm_data" = true ->
      thrown (sendMessage_resume e (Throw msg) st) = Some "QuotaExceededError"
      /\ localStorage (sendMessage_resume e (Throw msg) st) = localStorage st).
Proof.
  rewrite sendMessage_resume_unfold, addMessage_error.
  set (s1 := set_chatMessages (chatMessages st ++ [("message error", "Error: " +:+ msg)])
               st).
  destruct (saveToDatabase_fields e (setLoading false s1))
    as (-> & -> & -> & -> & _ & -> & -> & ->).
  destruct (saveToDatabase_storage e (setLoading false s1)) as [Hok Hfull].
  by split_and!.
Qed.
End ResumeFacts.





(** The first visit of the examples. *)
Lemma constructor_first_visit :
  constructor (H := reference_JSON) Examples.e1 (Some "sk-or-v1-test") ∅ [] 1
  = Constructed Examples.degraded.
Proof. reflexivity. Qed.



(** X9: with a faithful [JSON] and a storage that accepts the two writes
    of [clearChat], the next start of the page comes up with an empty history
    and an empty message list, in the session minted by the reset, and with
    the model that was current (the default one if that was the empty
    string).  When the storage refuses the snapshot write of [clearChat], it
    is left as it was, so the next start of the page is what it would have
    been without the reset. *)
Theorem clearChat_then_reload `{JSON} (e e' : env) (st : state) (key : option string)
    (records : list chat_record) (next : Z) :
  JSON_faithful ->
  (setItem_throws e "maxllm_data" = false ->
   setItem_throws e "maxllm_session_id" = false ->
   exists this,
     constructor e' key (localStorage (clearChat e st)) records next = Constructed this
     /\ chatHistory this = []
     /\ chatMessages this = []
     /\ sessionId this = "session-" +:+ pretty (Date_now e)
     /\ sessionId this = sessionId (clearChat e st)
     /\ currentModel this
        = (if truthy (currentModel st) then currentModel st else default_model))
  /\ (setItem_throws e "maxllm_data" = true ->
      constructor e' key (localStorage (clearChat e st)) records next
      = constructor e' key (localStorage st) records next).
Proof.
  intros Hfaithful. split.
  - intros Hdata Hsession.
    destruct (clearChat_cases e st) as [[Hd _]|[(_ & Hs & _)|(_ & _ & Heq)]];
      [congruence..|].
    rewrite Heq. rewrite (saveToDatabase_accepted e _ Hdata). simpl.
    destruct (reload_saved e' (Snapshot [] (currentModel st) (Date_toISOString e)) key
                (<["maxllm_session_id" := "session-" +:+ pretty (Date_now e)]>
                   (<["maxllm_data" :=
                        JSON_stringify
                          (Snapshot [] (currentModel st) (Date_toISOString e))]>
                      (localStorage st)))
                records next Hfaithful)
      as (this & Hc & Hh & Hm & Hl & Hsid).
    { by rewrite lookup_insert_eq. }
    { rewrite lookup_insert_ne by done. by rewrite lookup_insert_eq. }
    rewrite lookup_insert_eq in Hsid. simpl in Hh, Hm, Hl, Hsid.
    exists this. by split_and!.
  - intros Hdata.
    destruct (clearChat_cases e st) as [[_ ->]|[(Hd & _)|(Hd & _)]]; [done|congruence..].
Qed.

Lemma clearChat_then_reload_witness :
  (exists this,
      constructor (H := reference_JSON) Examples.e3 None
        (localStorage (clearChat (H := reference_JSON) Examples.e2 Examples.two_turns))
        [] 1
      = Constructed this
      /\ chatHistory this = []
      /\ sessionId this = "session-1700000005000")
  /\ constructor (H := reference_JSON) Examples.e3 None
       (localStorage (clearChat (H := reference_JSON) Examples.e3_full Examples.two_turns))
       [] 1
     = constructor (H := reference_JSON) Examples.e3 None
         (localStorage Examples.two_turns) [] 1.
Proof.
  destruct (clearChat_then_reload (H := reference_JSON) Examples.e2 Examples.e3
              Examples.two_turns None [] 1 reference_JSON_faithful)
    as [Hreset _].
  destruct (clearChat_then_reload (H := reference_JSON) Examples.e3_full Examples.e3
              Examples.two_turns None [] 1 reference_JSON_faithful)
    as [_ Hrefused].
  destruct (Hreset eq_refl eq_refl) as (this & Hc & Hh & _ & Hsid & _).
  split.
  - exists this. split; [exact Hc|]. split; [exact Hh|]. rewrite Hsid. reflexivity.
  - by apply Hrefused.
Defined.

(** ** The event loop *)

Lemma sendMessage_not_issued (e : env) (st : state) :
  (sendMessage e st).2 = None ->
  (sendMessage e st).1 = st \/ (sendMessage e st).1 = addMessage e "error" "CLEAR CHAT" st.
Proof.
  unfold sendMessage. cbv zeta.
  destruct (_ || _ || _); [by left|].
  destruct (1000 <? _); [by right|]. done.
Qed.

Section EventLoopFacts.
Context `{JSON}.

Lemma run_snoc (p : page) (evs : list (env * event)) (ev : env * event) :
  run p (evs ++ [ev]) = handle (run p evs) ev.
Proof. unfold run. apply foldl_snoc. Qed.

Lemma handle_Send (p : page) (e : env) :
  page_state (handle p (e, Send)) = (sendMessage e (page_state p)).1.
Proof.
  unfold handle. simpl. by destruct (sendMessage e (page_state p)) as [st' [req|]].
Qed.

(** Every handler is a short sequence of elementary changes. *)
Lemma handle_atomic (p : page) (e : env) (ev : event) :
  rtc (atomic (is_clear ev) e) (page_state p) (page_state (handle p (e, ev))).
Proof.
  destruct ev as [text| |reply|value| |fails_after| |].
  - apply rtc_once. constructor.
  - rewrite handle_Send.
    destruct (sendMessage e (page_state p)).2 as [req|] eqn:Hreq.
    + destruct (sendMessage_issued e (page_state p) req Hreq) as (_ & _ & _ & _ & ->).
      simpl. eapply rtc_l; [apply atomic_turn; by left|].
      eapply rtc_l; [apply atomic_input|]. apply rtc_once. apply atomic_loading.
    + destruct (sendMessage_not_issued e (page_state p) Hreq) as [-> | ->];
        [done|]. apply rtc_once. apply atomic_error.
  - unfold handle. simpl. destruct (in_flight p); [|done]. simpl.
    unfold sendMessage_resume. cbv zeta.
    eapply rtc_l; [|eapply rtc_l; [apply atomic_loading|apply rtc_once, atomic_save]].
    destruct reply; [apply atomic_turn; by right|apply atomic_error].
  - unfold handle, modelSelect_onchange. simpl.
    eapply rtc_l; [apply atomic_model|apply rtc_once, atomic_save].
  - apply rtc_once. by apply atomic_clear.
  - unfold handle. simpl. unfold showHistory.
    destruct (db (page_state p)); simpl.
    + destruct (readAllSessions _ _); simpl; [done| |done].
      unfold renderHistory.
      eapply rtc_l; [apply atomic_panel|apply rtc_once, atomic_panel].
    + apply rtc_once. apply atomic_alert.
  - apply rtc_once. apply atomic_panel.
  - apply rtc_once. apply atomic_db.
Qed.

(** A property of the object kept by every elementary change is kept by
    every run of the event loop. *)
Lemma run_invariant (I : state -> Prop) :
  (forall m e a b, atomic m e a b -> I a -> I b) ->
  forall (p : page) (evs : list (env * event)),
    I (page_state p) -> I (page_state (run p evs)).
Proof.
  intros Hstep p evs Hp.
  induction evs as [|[e ev] evs IH] using rev_ind; [done|].
  rewrite run_snoc.
  pose proof (handle_atomic (run p evs) e ev) as Hrtc.
  induction Hrtc as [|a b c Hab _ IHrtc]; [done|].
  apply IHrtc. by eapply Hstep.
Qed.

(** The same for a property that the elementary changes keep under a
    condition on the platform readings of the turn. *)
Lemma run_invariant_when (C : env -> event -> Prop) (I : state -> Prop) :
  (forall e ev a b, C e ev -> atomic (is_clear ev) e a b -> I a -> I b) ->
  forall (p : page) (evs : list (env * event)),
    Forall (fun x : env * event => C x.1 x.2) evs ->
    I (page_state p) -> I (page_state (run p evs)).
Proof.
  intros Hstep p evs Hevs Hp.
  induction evs as [|[e ev] evs IH] using rev_ind; [done|].
  apply Forall_app in Hevs as [Hevs Hev].
  rewrite Forall_singleton in Hev. simpl in Hev.
  rewrite run_snoc.
  pose proof (handle_atomic (run p evs) e ev) as Hrtc.
  specialize (IH Hevs). revert IH.
  induction Hrtc as [|a b c Hab _ IHrtc]; [done|].
  intros Ha. apply IHrtc. exact (Hstep e ev a b Hev Hab Ha).
Qed.
End EventLoopFacts.

Lemma addMessage_turn (e : env) (r c : string) (st : state) :
  r ≠ "error" ->
  addMessage e r c st
  = (if db st && negb (idb_write_fails e)
     then set_object_store
            (chat_records st
             ++ [ChatRecord (key_generator st) (sessionId st) (Date_now e) r c
                   (currentModel st)])
            (key_generator st + 1)
     else fun st' => st')
      (set_chatHistory (chatHistory st ++ [Message r c])
         (set_chatMessages (chatMessages st ++ [line_of (Message r c)]) st)).
Proof.
  intros Hr. unfold addMessage. cbv zeta. rewrite bool_decide_true by done.
  unfold addRecordToDb, IDBObjectStore_add. simpl.
  by destruct (db st), (idb_write_fails e).
Qed.

Lemma turn_role_not_error (r : string) : r = "user" \/ r = "assistant" -> r ≠ "error".
Proof. by intros [-> | ->]. Qed.

Section EventLoopInvariants.
Context `{JSON}.

(** What an elementary change does to the record store. *)
Lemma atomic_store (m : bool) (e : env) (a b : state) :
  atomic m e a b ->
  (chat_records b = chat_records a /\ key_generator b = key_generator a)
  \/ (exists r c,
        (r = "user" \/ r = "assistant")
        /\ chat_records b
           = chat_records a
             ++ [ChatRecord (key_generator a) (sessionId a) (Date_now e) r c
                   (currentModel a)]
        /\ key_generator b = key_generator a + 1).
Proof.
  destruct 1 as [r c st Hr|c st|text st|l st|v st|st|st _|shown v st|t st|st];
    try (by left).
  - rewrite addMessage_turn by (by apply turn_role_not_error).
    destruct (db st && negb (idb_write_fails e)); [|by left].
    right. by exists r, c.
  - left. by destruct (saveToDatabase_fields e st) as (_ & _ & _ & _ & _ & _ & -> & ->).
  - left. by destruct (clearChat_frame e st) as (_ & _ & _ & _ & -> & -> & _).
Qed.

Lemma atomic_store_well_formed (m : bool) (e : env) (a b : state) :
  atomic m e a b -> store_well_formed a -> store_well_formed b.
Proof.
  intros Hstep [Hasc Hbelow].
  destruct (atomic_store m e a b Hstep) as [[Hr Hk] | (r & c & _ & Hr & Hk)];
    unfold store_well_formed, ascending_keys; rewrite Hr, Hk; [done|].
  split.
  - apply StronglySorted_app_2; [|done|by repeat constructor].
    intros x y Hx Hy. apply list_elem_of_singleton in Hy as ->. simpl.
    rewrite Forall_forall in Hbelow. by apply Hbelow.
  - apply Forall_app. split.
    + eapply Forall_impl; [exact Hbelow|]. simpl. intros; lia.
    + repeat constructor. simpl. lia.
Qed.

(** The stored session identifier follows the one of the object, unless
    a reset rotates the identifier and the storage refuses the new one. *)
Lemma atomic_session (m : bool) (e : env) (a b : state) :
  (m = true -> setItem_throws e "maxllm_data" = false ->
   setItem_throws e "maxllm_session_id" = false) ->
  atomic m e a b ->
  localStorage a !! "maxllm_session_id" = Some (sessionId a) /\ sessionId a ≠ "" ->
  localStorage b !! "maxllm_session_id" = Some (sessionId b) /\ sessionId b ≠ "".
Proof.
  intros Hwrite.
  destruct 1 as [r c st Hr|c st|text st|l st|v st|st|st Hm|shown v st|t st|st];
    intros [Hls Hsid]; try done.
  - rewrite addMessage_turn by (by apply turn_role_not_error).
    by destruct (db st && negb (idb_write_fails e)).
  - rewrite saveToDatabase_session.
    by destruct (saveToDatabase_fields e st) as (_ & _ & _ & _ & _ & -> & _).
  - destruct (clearChat_cases e st) as [[_ ->]|[(Hd & Hs & _)|(Hd & _ & ->)]].
    + done.
    + rewrite (Hwrite Hm Hd) in Hs. done.
    + simpl. by rewrite lookup_insert_eq.
Qed.

Lemma line_of_not_error (r c : string) :
  r ≠ "error" -> (line_of (Message r c)).1 ≠ "message error".
Proof. intros Hr. unfold line_of. simpl. intros [= ?]. done. Qed.

Lemma atomic_page_shows_history (m : bool) (e : env) (a b : state) :
  atomic m e a b -> page_shows_history a -> page_shows_history b.
Proof.
  unfold page_shows_history.
  destruct 1 as [r c st Hr|c st|text st|l st|v st|st|st _|shown v st|t st|st];
    intros [Hlines Hroles]; try done.
  3:{ by destruct (saveToDatabase_fields e st) as (-> & -> & _). }
  3:{ rewrite clearChat_chatHistory.
      destruct (clearChat_frame e st) as (-> & _). split; [done|constructor]. }
  - apply turn_role_not_error in Hr.
    rewrite addMessage_turn by done.
    assert (chatMessages
              ((if db st && negb (idb_write_fails e)
                then set_object_store
                       (chat_records st
                        ++ [ChatRecord (key_generator st) (sessionId st) (Date_now e)
                              r c (currentModel st)])
                       (key_generator st + 1)
                else fun st' => st')
                 (set_chatHistory (chatHistory st ++ [Message r c])
                    (set_chatMessages (chatMessages st ++ [line_of (Message r c)]) st)))
            = chatMessages st ++ [line_of (Message r c)]
            /\ chatHistory
                 ((if db st && negb (idb_write_fails e)
                   then set_object_store
                          (chat_records st
                           ++ [ChatRecord (key_generator st) (sessionId st)
                                 (Date_now e) r c (currentModel st)])
                          (key_generator st + 1)
                   else fun st' => st')
                    (set_chatHistory (chatHistory st ++ [Message r c])
                       (set_chatMessages (chatMessages st ++ [line_of (Message r c)])
                          st)))
               = chatHistory st ++ [Message r c]) as [-> ->]
      by (by destruct (db st && negb (idb_write_fails e))).
    split.
    + rewrite filter_app, fmap_app, Hlines. f_equal.
      rewrite filter_cons_True by (by apply line_of_not_error). done.
    + apply Forall_app. split; [done|]. by repeat constructor.
  - rewrite addMessage_error. simpl. split; [|done].
    rewrite filter_app, filter_cons_False, filter_nil by (simpl; auto).
    by rewrite app_nil_r.
Qed.
End EventLoopInvariants.

(** X10: over any run of the event loop the record store only grows:
    the records it held stay, in place and unchanged, every record added is a
    user or an assistant turn, and the key generator advances by one per
    added record. *)
Theorem store_append_only `{JSON} (p : page) (evs : list (env * event)) :
  exists added : list chat_record,
    chat_records (page_state (run p evs)) = chat_records (page_state p) ++ added
    /\ Forall (fun r => rec_role r = "user" \/ rec_role r = "assistant") added
    /\ key_generator (page_state (run p evs))
       = key_generator (page_state p) + Z.of_nat (length added).
Proof.
  apply (run_invariant
    (fun st => exists added : list chat_record,
       chat_records st = chat_records (page_state p) ++ added
       /\ Forall (fun r => rec_role r = "user" \/ rec_role r = "assistant") added
       /\ key_generator st = key_generator (page_state p) + Z.of_nat (length added))).
  - intros m e a b Hstep (added & Hrec & Hroles & Hkey).
    destruct (atomic_store m e a b Hstep) as [[Hr Hk] | (r & c & Hrole & Hr & Hk)].
    + exists added. by rewrite Hr, Hk.
    + eexists (added ++ [_]). rewrite Hr, Hk, Hrec, Hkey, <- app_assoc.
      split; [done|]. split.
      * apply Forall_app. split; [done|]. constructor; [exact Hrole|constructor].
      * rewrite length_app. simpl. lia.
  - exists []. rewrite app_nil_r. simpl. split; [done|]. split; [constructor|lia].
Qed.

(** X11: a store whose keys ascend and lie below the key generator stays
    so over any run of the event loop; in particular no two records ever
    share a key. *)
Theorem store_keys_unique `{JSON} (p : page) (evs : list (env * event)) :
  store_well_formed (page_state p) ->
  store_well_formed (page_state (run p evs))
  /\ NoDup (rec_id <$> chat_records (page_state (run p evs))).
Proof.
  intros Hwf.
  assert (store_well_formed (page_state (run p evs))) as Hrun.
  { revert Hwf. apply run_invariant. apply atomic_store_well_formed. }
  split; [done|].
  destruct Hrun as [Hasc _]. unfold ascending_keys in Hasc.
  induction Hasc as [|x l Hs IH Hx]; simpl; constructor; [|done].
  rewrite list_elem_of_fmap. intros (y & Hid & Hy).
  rewrite Forall_forall in Hx. specialize (Hx y Hy). simpl in Hx. lia.
Qed.

Lemma store_keys_unique_witness :
  NoDup (rec_id <$> chat_records
                      (page_state (run (H := reference_JSON) Examples.opened
                                     Examples.visit)))
  /\ length (chat_records
               (page_state (run (H := reference_JSON) Examples.opened Examples.visit)))
     = 2%nat.
Proof.
  destruct (store_keys_unique (H := reference_JSON) Examples.opened Examples.visit)
    as [_ Hnodup].
  { split; constructor. }
  split; [exact Hnodup|reflexivity].
Defined.

Section SingleFlight.
Context `{JSON}.

Lemma handle_loading (p : page) (ev : env * event) :
  (isLoading (page_state p) = true <-> is_Some (in_flight p)) ->
  (isLoading (page_state (handle p ev)) = true <-> is_Some (in_flight (handle p ev))).
Proof.
  destruct p as [st pending], ev as [e ev]. simpl. intros Hinv.
  destruct ev as [text| |reply|value| |fails_after| |].
  - done.
  - unfold handle. simpl.
    destruct (sendMessage e st) as [st' [req|]] eqn:Hsend; simpl.
    + assert ((sendMessage e st).2 = Some req) as Hreq by (by rewrite Hsend).
      destruct (sendMessage_issued e st req Hreq) as (_ & _ & _ & _ & Heq).
      rewrite Heq in Hsend. injection Hsend as <- _. simpl. split; [eauto|done].
    + assert ((sendMessage e st).2 = None) as Hreq by (by rewrite Hsend).
      destruct (sendMessage_not_issued e st Hreq) as [Hst | Hst];
        rewrite Hsend in Hst; simpl in Hst; subst st'; [done|].
      by rewrite addMessage_error.
  - unfold handle. simpl. destruct pending as [req|]; simpl; [|done].
    assert (isLoading (sendMessage_resume e reply st) = false) as ->.
    { destruct reply as [text|msg].
      - by destruct (sendMessage_resume_text e text st) as (_ & _ & -> & _).
      - by destruct (sendMessage_resume_error e msg st) as (_ & _ & -> & _). }
    split; [done|]. by intros [? ?].
  - unfold handle, modelSelect_onchange. simpl.
    by destruct (saveToDatabase_fields e (set_currentModel value st))
      as (_ & _ & -> & _).
  - unfold handle. simpl. by destruct (clearChat_frame e st) as (_ & -> & _).
  - unfold handle. simpl. unfold showHistory.
    destruct (db st); simpl; [|done].
    by destruct (readAllSessions _ _ _).
  - done.
  - done.
Qed.
End SingleFlight.

(** X12: at most one provider request is in flight.  Over any run of the
    event loop the object is marked as loading exactly while a request is
    in flight, and while one is, a send, whatever is in the input box, changes
    nothing and issues no further request. *)
Theorem single_flight `{JSON} (p : page) (evs : list (env * event)) :
  (isLoading (page_state p) = true <-> is_Some (in_flight p)) ->
  (isLoading (page_state (run p evs)) = true <-> is_Some (in_flight (run p evs)))
  /\ (is_Some (in_flight (run p evs)) ->
      forall (e e' : env) (text : string),
        handle (run p evs) (e, Send) = run p evs
        /\ handle (handle (run p evs) (e, InputText text)) (e', Send)
           = handle (run p evs) (e, InputText text)).
Proof.
  intros Hinv.
  assert (isLoading (page_state (run p evs)) = true
          <-> is_Some (in_flight (run p evs))) as Hrun.
  { induction evs as [|ev evs IH] using rev_ind; [done|].
    rewrite run_snoc. by apply handle_loading. }
  split; [done|].
  intros Hflight e e' text. apply Hrun in Hflight.
  destruct (run p evs) as [st pending]. simpl in Hflight.
  split; unfold handle, sendMessage; simpl; by rewrite Hflight, orb_true_r.
Qed.

Lemma single_flight_witness :
  handle (H := reference_JSON)
    (run (H := reference_JSON) Examples.opened (take 2 Examples.visit))
    (Examples.e3, Send)
  = run (H := reference_JSON) Examples.opened (take 2 Examples.visit).
Proof.
  destruct (single_flight (H := reference_JSON) Examples.opened
              (take 2 Examples.visit)) as [_ Hbusy].
  { split; [discriminate|]. by intros [? ?]. }
  by apply (Hbusy ltac:(by eexists) Examples.e3 Examples.e3 "").
Defined.

(** X13: from an object the constructor has returned, over any run of the
    event loop in which every reset that rotates the session identifier can
    store the new one, the session identifier of the object is non-empty and
    is the one stored under [maxllm_session_id]; so the next start of the page
    does not throw and continues the same session. *)
Theorem session_survives_reload `{JSON} (e : env) (key : option string)
    (storage : gmap string string) (records : list chat_record)
    (next : Z) (this : state) (evs : list (env * event)) :
  constructor e key storage records next = Constructed this ->
  Forall (fun ev : env * event =>
            is_clear ev.2 = true -> setItem_throws ev.1 "maxllm_data" = false ->
            setItem_throws ev.1 "maxllm_session_id" = false) evs ->
  localStorage (page_state (run (start this) evs)) !! "maxllm_session_id"
  = Some (sessionId (page_state (run (start this) evs)))
  /\ sessionId (page_state (run (start this) evs)) ≠ ""
  /\ forall (e' : env) (key' : option string) (records' : list chat_record)
            (next' : Z),
       (forall error,
           constructor e' key' (localStorage (page_state (run (start this) evs)))
             records' next'
           ≠ ConstructorThrew error)
       /\ (forall this',
             constructor e' key' (localStorage (page_state (run (start this) evs)))
               records' next'
             = Constructed this' ->
             sessionId this' = sessionId (page_state (run (start this) evs))).
Proof.
  intros Hc Hevs.
  assert (localStorage (page_state (run (start this) evs)) !! "maxllm_session_id"
          = Some (sessionId (page_state (run (start this) evs)))
          /\ sessionId (page_state (run (start this) evs)) ≠ "")
    as [Hls Hsid].
  { apply (run_invariant_when
      (fun e ev => is_clear ev = true -> setItem_throws e "maxllm_data" = false ->
                   setItem_throws e "maxllm_session_id" = false)
      (fun st => localStorage st !! "maxllm_session_id" = Some (sessionId st)
                 /\ sessionId st ≠ "")).
    - intros e0 ev a b Hwrite. by apply atomic_session.
    - exact Hevs.
    - unfold start. simpl.
      destruct (constructor_Constructed e key storage records next this Hc)
        as (this0 & Hload & _ & _ & _ & _ & _ & _ & _ & _ & _ & _ & Hsid0 & Hls0).
      destruct (loadFromDatabase_frame this0 this Hload) as (_ & _ & -> & -> & _).
      split; [done|]. rewrite Hsid0.
      destruct (storage !! "maxllm_session_id") as [id|]; simpl; [|done].
      destruct (truthy id) eqn:Ht; simpl; [|done]. by destruct id. }
  split_and!; [done..|].
  intros e' key' records' next'.
  assert (falsy (localStorage (page_state (run (start this) evs))
                   !! "maxllm_session_id") = false) as Hstored.
  { rewrite Hls. simpl. by rewrite truthy_neq. }
  split.
  - intros error.
    destruct (constructor_before_load e' key'
                (localStorage (page_state (run (start this) evs))) records' next')
      as (this0 & -> & _); [by rewrite Hstored|].
    by destruct (loadFromDatabase this0).
  - intros this' Hc'.
    destruct (constructor_Constructed e' key' _ records' next' this' Hc')
      as (this0 & Hload & _ & _ & _ & _ & _ & _ & _ & _ & _ & _ & Hsid0 & _).
    destruct (loadFromDatabase_frame this0 this' Hload) as (_ & _ & -> & _).
    by rewrite Hsid0, Hstored, Hls.
Qed.

Lemma session_survives_reload_witness :
  localStorage
    (page_state
       (run (H := reference_JSON) (start Examples.degraded)
          (Examples.visit ++ [(Examples.e3, ClearChat)])))
    !! "maxllm_session_id"
  = Some "session-1700000009000"
  /\ localStorage
       (page_state
          (run (H := reference_JSON) (start Examples.degraded)
             (Examples.visit ++ [(Examples.e3_full, ClearChat)])))
       !! "maxllm_session_id"
     = Some "session-1700000000000".
Proof.
  destruct (session_survives_reload (H := reference_JSON) Examples.e1
              (Some "sk-or-v1-test") ∅ [] 1 Examples.degraded
              (Examples.visit ++ [(Examples.e3, ClearChat)]) constructor_first_visit)
    as (Hrotated & _ & _).
  { repeat constructor. }
  destruct (session_survives_reload (H := reference_JSON) Examples.e1
              (Some "sk-or-v1-test") ∅ [] 1 Examples.degraded
              (Examples.visit ++ [(Examples.e3_full, ClearChat)])
              constructor_first_visit)
    as (Hkept & _ & _).
  { repeat constructor. simpl. discriminate. }
  split.
  - rewrite Hrotated. reflexivity.
  - rewrite Hkept. reflexivity.
Defined.

(** X14: when the page shows the live history (its lines other than error
    lines are the lines of the history, and the history holds no message of
    role [error]), it still does after any run of the event loop. *)
Theorem page_shows_live_history `{JSON} (p : page) (evs : list (env * event)) :
  page_shows_history (page_state p) -> page_shows_history (page_state (run p evs)).
Proof. apply run_invariant. apply atomic_page_shows_history. Qed.

Lemma page_shows_live_history_witness :
  page_shows_history
    (page_state
       (run (H := reference_JSON) Examples.opened
          (Examples.visit ++ [(Examples.e3, ProviderSettled (Throw "late"))]))).
Proof.
  apply (page_shows_live_history (H := reference_JSON) Examples.opened).
  split; [reflexivity|constructor].
Defined.

Section ActiveSession.
Context `{JSON}.

Lemma atomic_active_session (e : env) (a b : state) :
  idb_write_fails e = false -> atomic false e a b ->
  db a = true /\ active_session_turns a = chatHistory a ->
  (db b = true /\ active_session_turns b = chatHistory b)
  /\ sessionId b = sessionId a.
Proof.
  intros He Hstep [Hdb Hmirror]. unfold active_session_turns in *.
  destruct Hstep as [r c st Hr|c st|text st|l st|v st|st|st Hclear|shown v st|t st|st];
    try done.
  2:{ by destruct (saveToDatabase_fields e st) as (-> & _ & _ & _ & -> & -> & -> & _). }
  apply turn_role_not_error in Hr.
  rewrite addMessage_turn, Hdb, He by done. simpl.
  split; [|done]. split; [done|].
  rewrite filter_app, fmap_app, Hmirror. f_equal.
  by rewrite filter_cons_True.
Qed.

Lemma run_active_session (p : page) (evs : list (env * event)) :
  Forall (fun ev : env * event => idb_write_fails ev.1 = false /\ is_clear ev.2 = false)
    evs ->
  db (page_state p) = true /\ active_session_turns (page_state p) = chatHistory (page_state p) ->
  (db (page_state (run p evs)) = true
   /\ active_session_turns (page_state (run p evs)) = chatHistory (page_state (run p evs)))
  /\ sessionId (page_state (run p evs)) = sessionId (page_state p).
Proof.
  intros Hevs Hp.
  induction evs as [|[e ev] evs IH] using rev_ind; [done|].
  apply Forall_app in Hevs as [Hevs Hev].
  apply Forall_singleton in Hev as [He Hclear]. simpl in He, Hclear.
  destruct (IH Hevs) as [IHq IHsid]. rewrite run_snoc, <- IHsid.
  pose proof (handle_atomic (run p evs) e ev) as Hrtc. rewrite Hclear in Hrtc.
  revert IHq. clear IH IHsid.
  induction Hrtc as [|a b c Hab _ IHrtc]; [done|].
  intros Ha. destruct (atomic_active_session e a b He Hab Ha) as [Hb <-].
  by apply IHrtc.
Qed.
End ActiveSession.

(** X15: after a reset that mints a session identifier not yet in the
    store, and more generally from any state whose stored records of the
    current session are the live history, as long as the database is open,
    the writes are accepted and the chat is not cleared, the store's records
    of the current session, read as (role, content) pairs in key order, are
    exactly the live history, and the session stays the same.  The reset is
    one that gets to mint the identifier: the storage accepts its snapshot
    write. *)
Theorem active_session_mirrors_history `{JSON} (p : page) (evs : list (env * event)) :
  Forall (fun ev : env * event => idb_write_fails ev.1 = false /\ is_clear ev.2 = false)
    evs ->
  db (page_state p) = true ->
  (active_session_turns (page_state p) = chatHistory (page_state p) ->
   active_session_turns (page_state (run p evs)) = chatHistory (page_state (run p evs))
   /\ sessionId (page_state (run p evs)) = sessionId (page_state p))
  /\ (forall e : env,
        setItem_throws e "maxllm_data" = false ->
        "session-" +:+ pretty (Date_now e)
          ∉ rec_sessionId <$> chat_records (page_state p) ->
        active_session_turns
          (page_state (run (Page (clearChat e (page_state p)) (in_flight p)) evs))
        = chatHistory
            (page_state (run (Page (clearChat e (page_state p)) (in_flight p)) evs))).
Proof.
  intros Hevs Hdb. split.
  - intros Hmirror.
    by destruct (run_active_session p evs Hevs (conj Hdb Hmirror)) as [[_ ?] ?].
  - intros e Hdata Hfresh.
    apply (run_active_session (Page (clearChat e (page_state p)) (in_flight p)) evs Hevs).
    destruct (clearChat_frame e (page_state p)) as (_ & _ & _ & Hdb' & Hrec' & _).
    pose proof (clearChat_chatHistory e (page_state p)) as Hh'.
    pose proof (clearChat_sessionId e (page_state p) Hdata) as Hsid'.
    split; [simpl; congruence|]. unfold active_session_turns. simpl.
    rewrite Hh', Hrec', Hsid'.
    set (sid := "session-" +:+ pretty (Date_now e)) in *.
    destruct (filter _ _) as [|r l] eqn:Hf; [done|].
    assert (r ∈ filter (fun r => rec_sessionId r = sid) (chat_records (page_state p)))
      as Hr by (rewrite Hf; left).
    apply list_elem_of_filter in Hr as [<- Hr].
    destruct Hfresh. by apply list_elem_of_fmap_2.
Qed.

Lemma active_session_mirrors_history_witness :
  active_session_turns
    (page_state (run (H := reference_JSON) Examples.opened Examples.visit))
  = [Message "user" "hello"; Message "assistant" "hi there"]
  /\ active_session_turns
       (page_state
          (run (H := reference_JSON)
             (Page (clearChat (H := reference_JSON) Examples.e3
                      (page_state
                         (run (H := reference_JSON) Examples.opened Examples.visit)))
                None)
             Examples.visit))
     = [Message "user" "hello"; Message "assistant" "hi there"].
Proof.
  destruct (active_session_mirrors_history (H := reference_JSON) Examples.opened
              Examples.visit) as [Hfrom _].
  { repeat constructor. }
  { reflexivity. }
  destruct (active_session_mirrors_history (H := reference_JSON)
              (run (H := reference_JSON) Examples.opened Examples.visit)
              Examples.visit) as [_ Hreset].
  { repeat constructor. }
  { reflexivity. }
  split.
  - destruct Hfrom as [-> _]; reflexivity.
  - etrans; [apply (Hreset Examples.e3)|reflexivity]; [reflexivity|].
    apply (bool_decide_unpack _). by vm_compute.
Defined.

(** ** Reconstruction loses nothing *)

Lemma concat_fmap_perm {A B} (f : A -> list B) (l l' : list A) :
  l ≡ₚ l' -> concat (f <$> l) ≡ₚ concat (f <$> l').
Proof.
  induction 1 as [|x l l' _ IH|x y l|l1 l2 l3 _ IH1 _ IH2]; simpl.
  - done.
  - by rewrite IH.
  - rewrite !app_assoc. f_equiv. apply Permutation_app_comm.
  - by rewrite IH1.
Qed.

Lemma concat_fmap_ext_perm {A B} (f g : A -> list B) (l : list A) :
  (forall x, f x ≡ₚ g x) -> concat (f <$> l) ≡ₚ concat (g <$> l).
Proof. intros Hfg. induction l as [|x l IH]; simpl; [done|]. by rewrite Hfg, IH. Qed.

Lemma filter_session_split (id : string) (ids : list string) (scan : list chat_record) :
  id ∉ ids ->
  filter (fun r => rec_sessionId r = id) scan
  ++ filter (fun r => rec_sessionId r ∈ ids) scan
  ≡ₚ filter (fun r => rec_sessionId r ∈ id :: ids) scan.
Proof.
  intros Hid. induction scan as [|r scan IH]; [done|].
  rewrite !filter_cons.
  destruct (decide (rec_sessionId r = id)) as [Heq|Hne].
  - rewrite decide_False by (by rewrite Heq).
    rewrite decide_True by (rewrite Heq; left). simpl. by rewrite IH.
  - destruct (decide (rec_sessionId r ∈ ids)) as [Hin|Hin].
    + rewrite decide_True by (by right).
      rewrite <- Permutation_middle. by rewrite IH.
    + rewrite decide_False by (rewrite elem_of_cons; intuition). done.
Qed.

Lemma groups_partition (ids : list string) (scan : list chat_record) :
  NoDup ids ->
  concat ((fun id => filter (fun r => rec_sessionId r = id) scan) <$> ids)
  ≡ₚ filter (fun r => rec_sessionId r ∈ ids) scan.
Proof.
  induction 1 as [|id ids Hid _ IH]; simpl.
  - induction scan as [|r scan IHs]; [done|].
    rewrite filter_cons_False; [done|]. apply not_elem_of_nil.
  - rewrite IH. by apply filter_session_split.
Qed.

Lemma filter_all {A} (P : A -> Prop) `{forall x, Decision (P x)} (l : list A) :
  Forall P l -> filter P l = l.
Proof.
  induction 1 as [|x l Hx _ IH]; [done|]. by rewrite filter_cons_True, IH.
Qed.

Lemma session_views_partition (scan : list chat_record) :
  concat (sv_records <$> session_views scan) ≡ₚ scan.
Proof.
  unfold session_views, group_by_session.
  rewrite <- !list_fmap_compose.
  rewrite (concat_fmap_ext_perm _
             (fun id => filter (fun r => rec_sessionId r = id) scan))
    by (intros id; simpl; apply Array_sort_perm).
  rewrite groups_partition by apply first_seen_NoDup.
  rewrite filter_all; [done|].
  apply Forall_forall. intros r Hr. apply first_seen_elem_of.
  by apply list_elem_of_fmap_2.
Qed.

(** X16: on a database handle that lets the scan start, a scan that runs
    to the end puts every
    record of the store into exactly one view: the records of all views
    together are the records of the store, each as often as it is stored; a
    record lies in the view of its own session; and no two views share a
    session identifier. *)
Theorem reconstruction_partitions (e : env) (st : state) :
  db st = true -> idb_scan_throws e = false ->
  exists views : list SessionView,
    readAllSessions e st (cursor_events (chat_records st) None) = Resolved views
    /\ concat (sv_records <$> views) ≡ₚ chat_records st
    /\ NoDup (sv_sessionId <$> views)
    /\ (forall v r, v ∈ views -> r ∈ sv_records v -> rec_sessionId r = sv_sessionId v)
    /\ (forall r, r ∈ chat_records st ->
          exists v, v ∈ views /\ sv_sessionId v = rec_sessionId r /\ r ∈ sv_records v).
Proof.
  intros Hdb He. exists (reconstruct (chat_records st)).
  assert (reconstruct (chat_records st) ≡ₚ session_views (chat_records st)) as Hperm
    by apply Array_sort_perm.
  assert (forall v r, v ∈ reconstruct (chat_records st) ->
            (r ∈ sv_records v
             <-> r ∈ chat_records st /\ rec_sessionId r = sv_sessionId v)) as Hmem.
  { intros v r Hv. rewrite Hperm in Hv.
    apply session_views_elem in Hv as [-> _].
    rewrite Array_sort_perm, list_elem_of_filter. intuition. }
  split_and!.
  - by apply readAllSessions_full.
  - rewrite (concat_fmap_perm _ _ _ Hperm). apply session_views_partition.
  - rewrite Hperm, session_views_ids. apply first_seen_NoDup.
  - intros v r Hv Hr. by apply (Hmem v r Hv) in Hr as [_ ?].
  - intros r Hr.
    assert (rec_sessionId r ∈ sv_sessionId <$> reconstruct (chat_records st)) as Hid.
    { rewrite Hperm, session_views_ids. apply first_seen_elem_of.
      by apply list_elem_of_fmap_2. }
    apply list_elem_of_fmap in Hid as (v & Hid & Hv).
    exists v. split; [done|]. split; [done|]. by apply (Hmem v r Hv).
Qed.

Lemma reconstruction_partitions_witness :
  exists views,
    readAllSessions Examples.e3 Examples.two_turns
      (cursor_events (chat_records Examples.two_turns) None) = Resolved views
    /\ concat (sv_records <$> views) ≡ₚ chat_records Examples.two_turns.
Proof.
  destruct (reconstruction_partitions Examples.e3 Examples.two_turns eq_refl eq_refl)
    as (views & Hres & Hperm & _).
  by exists views.
Defined.

(** ** Refused writes *)

(** X17: when IndexedDB refuses the writes, appends complete all the same:
    the live history grows by the turns appended with a role other than
    [error], and the record store and its key generator stay as they
    were. *)
Theorem refused_writes_keep_history (st : state)
    (calls : list (env * (string * string))) :
  Forall (fun c : env * (string * string) => idb_write_fails c.1 = true) calls ->
  chatHistory (appendTurns calls st) = chatHistory st ++ turns_of calls
  /\ chat_records (appendTurns calls st) = chat_records st
  /\ key_generator (appendTurns calls st) = key_generator st.
Proof.
  intros Hcalls. split; [apply appendTurns_chatHistory|].
  induction calls as [|[e [r c]] calls IH] using rev_ind; [done|].
  apply Forall_app in Hcalls as [Hcalls Hc].
  rewrite Forall_singleton in Hc. simpl in Hc.
  destruct (IH Hcalls) as [IHr IHk].
  unfold appendTurns in *. rewrite foldl_snoc. simpl.
  set (st1 := foldl _ st calls) in *.
  unfold addMessage. cbv zeta. case_bool_decide; [|done].
  unfold addRecordToDb, IDBObjectStore_add. simpl. rewrite Hc.
  by destruct (db st1).
Qed.

Lemma refused_writes_keep_history_witness :
  chatHistory
    (appendTurns [(Examples.e2_closed, ("user", "hi"))]
       Examples.fresh)
  = [Message "user" "hi"]
  /\ chat_records
       (appendTurns [(Examples.e2_closed, ("user", "hi"))]
          Examples.fresh)
     = [].
Proof.
  destruct (refused_writes_keep_history Examples.fresh
              [(Examples.e2_closed, ("user", "hi"))])
    as (Hh & Hr & _).
  { by repeat constructor. }
  split.
  - rewrite Hh. reflexivity.
  - rewrite Hr. reflexivity.
Defined.

(** ** Edge cases of the budget and of a reset *)

Lemma total_chars_app (l1 l2 : list message) :
  total_chars (l1 ++ l2) = total_chars l1 + total_chars l2.
Proof. induction l1 as [|m l1 IH]; simpl; [done|]. rewrite IH. lia. Qed.

Lemma total_chars_buildMessages (h : list message) (c : string) :
  total_chars (buildMessages h c)
  = 52 + total_chars (Array_slice (-10) h) + Z.of_nat (String.length c).
Proof.
  unfold buildMessages.
  change (total_chars (system_message :: ?l)) with (52 + total_chars l).
  rewrite total_chars_app. simpl. lia.
Qed.

Lemma sendMessage_accepts (e : env) (st : state) :
  trim (messageInput st) ≠ "" -> isLoading st = false -> falsy (apiKey st) = false ->
  estimateTokens (Some <$> buildMessages (chatHistory st) (trim (messageInput st)))
  <= 1000 ->
  (sendMessage e st).2
  = Some (Request (currentModel st)
            (buildMessages (chatHistory st) (trim (messageInput st)))).
Proof.
  intros Hmsg Hload Hkey Hest.
  unfold sendMessage. cbv zeta.
  rewrite (truthy_neq _ Hmsg), Hload, Hkey. simpl negb. simpl orb. cbv iota.
  apply Z.ltb_ge in Hest. rewrite Hest.
  destruct (addMessage_frame e "user" (trim (messageInput st)) st)
    as (_ & _ & _ & Hmodel & _).
  simpl. by rewrite Hmodel.
Qed.

Lemma first_turn_in_budget (text : string) :
  Z.of_nat (String.length (trim text)) <= 3948 ->
  estimateTokens (Some <$> buildMessages [] (trim text)) <= 1000.
Proof.
  intros Hlen. apply estimateTokens_budget. rewrite total_chars_buildMessages.
  change (total_chars (Array_slice (-10) [])) with 0. lia.
Qed.

(** X19: once the last 10 turns of the history hold more than 3948
    characters, every send from the idle object is answered without a
    request and without a change to the history, whatever the input; after
    [clearChat] an input of at most 3948 characters after trimming, and not
    blank, is sent again. *)
Theorem too_long_until_cleared `{JSON} (st : state) :
  isLoading st = false -> falsy (apiKey st) = false ->
  3948 < total_chars (Array_slice (-10) (chatHistory st)) ->
  (forall (e : env) (text : string),
      (sendMessage e (set_messageInput text st)).2 = None
      /\ chatHistory (sendMessage e (set_messageInput text st)).1 = chatHistory st)
  /\ (forall (e e' : env) (text : string),
        trim text ≠ "" -> Z.of_nat (String.length (trim text)) <= 3948 ->
        (sendMessage e' (set_messageInput text (clearChat e st))).2
        = Some (Request (currentModel st) [system_message; Message "user" (trim text)])).
Proof.
  intros Hl Hk Hlong. split.
  - intros e text. unfold sendMessage. cbv zeta.
    change (messageInput (set_messageInput text st)) with text.
    change (isLoading (set_messageInput text st)) with (isLoading st).
    change (apiKey (set_messageInput text st)) with (apiKey st).
    change (chatHistory (set_messageInput text st)) with (chatHistory st).
    rewrite Hl, Hk.
    destruct (truthy (trim text)); simpl negb; simpl orb; cbv iota; [|done].
    assert (1000 < estimateTokens (Some <$> buildMessages (chatHistory st) (trim text)))
      as Hest.
    { pose proof (estimateTokens_budget (buildMessages (chatHistory st) (trim text)))
        as Hb.
      rewrite total_chars_buildMessages in Hb. clear Hl Hk. lia. }
    apply Z.ltb_lt in Hest. rewrite Hest, addMessage_error. done.
  - intros e e' text Htext Hlen.
    destruct (clearChat_frame e st) as (_ & Hl' & Hm' & _ & _ & _ & Hk' & _).
    pose proof (clearChat_chatHistory e st) as Hh'.
    rewrite sendMessage_accepts.
    + cbn [currentModel chatHistory messageInput set_messageInput].
      by rewrite Hm', Hh'.
    + exact Htext.
    + cbn [isLoading set_messageInput]. by rewrite Hl'.
    + cbn [apiKey set_messageInput]. by rewrite Hk'.
    + cbn [chatHistory messageInput set_messageInput]. rewrite Hh'.
      by apply first_turn_in_budget.
Qed.

Lemma too_long_until_cleared_witness :
  (sendMessage Examples.e3
     (set_messageInput "hello"
        (set_chatHistory [Message "user" (Examples.repeat_string 500 "too long ")]
           Examples.fresh))).2
  = None
  /\ (sendMessage Examples.e3
        (set_messageInput "hello"
           (clearChat (H := reference_JSON) Examples.e2
              (set_chatHistory [Message "user" (Examples.repeat_string 500 "too long ")]
                 Examples.fresh)))).2
     = Some (Request "deepseek/deepseek-r1:free"
               [system_message; Message "user" "hello"]).
Proof.
  destruct (too_long_until_cleared (H := reference_JSON)
              (set_chatHistory [Message "user" (Examples.repeat_string 500 "too long ")]
                 Examples.fresh) eq_refl eq_refl ltac:(by vm_compute))
    as [Hstuck Hfree].
  split.
  - by destruct (Hstuck Examples.e3 "hello") as [-> _].
  - apply (Hfree Examples.e2 Examples.e3 "hello"); by vm_compute.
Defined.

(** X20: when the chat is cleared while a request is in flight, the
    object stays marked as loading until the answer arrives, and the answer is
    appended to the emptied history, which then holds this assistant turn
    alone; the snapshot saved with it, when the storage accepts it, holds the
    same.  With the database open and the write accepted the record of the
    answer is stored under the session identifier the object has after the
    reset: the one the reset minted when the storage accepted its snapshot
    write, and otherwise still the identifier of the session that was
    cleared. *)
Theorem late_reply_after_clear `{JSON} (e1 e2 e3 : env) (st : state) (req : request)
    (text : string) :
  (sendMessage e1 st).2 = Some req ->
  isLoading (clearChat e2 (sendMessage e1 st).1) = true
  /\ chatHistory (sendMessage_resume e3 (Normal text) (clearChat e2 (sendMessage e1 st).1))
     = [Message "assistant" text]
  /\ (setItem_throws e3 "maxllm_data" = false ->
      localStorage (sendMessage_resume e3 (Normal text) (clearChat e2 (sendMessage e1 st).1))
        !! "maxllm_data"
      = Some (JSON_stringify
                (Snapshot [Message "assistant" text] (currentModel st)
                   (Date_toISOString e3))))
  /\ (db st = true -> idb_write_fails e3 = false ->
      last (chat_records
              (sendMessage_resume e3 (Normal text) (clearChat e2 (sendMessage e1 st).1)))
      = Some (ChatRecord
                (key_generator (sendMessage e1 st).1)
                (sessionId (clearChat e2 (sendMessage e1 st).1)) (Date_now e3)
                "assistant" text (currentModel st)))
  /\ (setItem_throws e2 "maxllm_data" = false ->
      sessionId (clearChat e2 (sendMessage e1 st).1)
      = "session-" +:+ pretty (Date_now e2))
  /\ (setItem_throws e2 "maxllm_data" = true ->
      sessionId (clearChat e2 (sendMessage e1 st).1) = sessionId st).
Proof.
  intros Hreq.
  destruct (sendMessage_issued_fields e1 st req Hreq)
    as (_ & _ & Hl1 & Hm1 & Hdb1 & Hsid1 & _).
  destruct (clearChat_frame e2 (sendMessage e1 st).1)
    as (_ & Hl & Hm & Hdb & _ & Hkey & _).
  pose proof (clearChat_chatHistory e2 (sendMessage e1 st).1) as Hh.
  destruct (sendMessage_resume_text e3 text (clearChat e2 (sendMessage e1 st).1))
    as (Hh3 & _ & _ & _ & _ & _ & Hrec3 & _ & Hok & _).
  split_and!.
  - by rewrite Hl.
  - by rewrite Hh3, Hh.
  - intros He3. destruct (Hok He3) as [_ ->].
    by rewrite lookup_insert_eq, Hh, Hm, Hm1.
  - intros Hdbst He3.
    assert (db (clearChat e2 (sendMessage e1 st).1) = true) as Hopen by congruence.
    destruct (addMessage_persists e3 "assistant" text
                (clearChat e2 (sendMessage e1 st).1) Hopen He3 ltac:(done)) as [Hr _].
    by rewrite Hrec3, Hr, last_snoc, Hkey, Hm, Hm1.
  - apply clearChat_sessionId.
  - intros He2.
    destruct (clearChat_cases e2 (sendMessage e1 st).1)
      as [[_ ->]|[(Hd & _)|(Hd & _)]]; [|congruence..].
    exact Hsid1.
Qed.

Lemma late_reply_after_clear_witness :
  chatHistory
    (sendMessage_resume (H := reference_JSON) Examples.e3 (Normal "hi there")
       (clearChat (H := reference_JSON) Examples.e3
          (sendMessage Examples.e2 Examples.typed_hello).1))
  = [Message "assistant" "hi there"]
  /\ sessionId
       (clearChat (H := reference_JSON) Examples.e3_full
          (sendMessage Examples.e2 Examples.typed_hello).1)
     = "session-1700000000000".
Proof.
  destruct (late_reply_after_clear (H := reference_JSON) Examples.e2 Examples.e3
              Examples.e3 Examples.typed_hello _ "hi there" eq_refl)
    as (_ & Hh & _).
  destruct (late_reply_after_clear (H := reference_JSON) Examples.e2 Examples.e3_full
              Examples.e3 Examples.typed_hello _ "hi there" eq_refl)
    as (_ & _ & _ & _ & _ & Hkept).
  split; [exact Hh|].
  rewrite Hkept by reflexivity. reflexivity.
Defined.
